(** * EyePop client: prompt construction and response extraction

    A shallow embedding of the two pure functions of
    [app/lib/eyepop-client.ts]:

    - [buildComprehensivePrompt] (lines 94-165), and
    - [parseVisualIntelligenceResponse] (lines 191-391) with its local
      helper [createFieldMapping] (lines 212-266).

    JavaScript strings are modelled by [string]; a character stands for
    the UTF-16 code unit of the same number, so the model covers the
    code units U+0000 to U+00FF (Latin-1).  Console output is not part
    of the model, with one exception: the preview the extractor logs on
    entry (lines 192-203) is modelled, since it reads [text] and
    [classes] of every result and throws on a result that is [null] or
    whose [text] is neither a string nor nullish.

    Around them the development covers the code that feeds and reads
    the two functions: [createVisualIntelligencePop] and
    [processBatch] of the client; of [app/routes/api.shopify-export.ts],
    [dataURLtoBlob] (lines 8-29), the mapping to product fields of the
    export action (lines 163-245), and the content configuration and
    data URL of the processing action (lines 672-708, 769-775, 848);
    and the Pop generators of [test/test-pop-config.js].  What talks to
    the network is a function of an explicit state; the platform's
    [JSON.parse], [atob], [Date.now] and printing of numbers are
    parameters. *)

From Stdlib Require Import Ascii QArith DecimalString.
From stdpp Require Import gmap strings list.

Local Open Scope stdpp_scope.
Set Warnings "-register-all".


(** ** JavaScript string primitives *)

Module JsString.

Definition LF : ascii := "010"%char.
Definition CR : ascii := "013"%char.

Definition nonempty (s : string) : bool :=
  match s with "" => false | String _ _ => true end.

(** [s.startsWith(p)] *)
Fixpoint starts_with (s p : string) : bool :=
  match p with
  | "" => true
  | String c p' =>
      match s with
      | "" => false
      | String d s' => if Ascii.eqb c d then starts_with s' p' else false
      end
  end.

(** [s.includes(needle)] *)
Fixpoint includes (s needle : string) : bool :=
  starts_with s needle ||
  match s with
  | "" => false
  | String _ s' => includes s' needle
  end.

(** [xs.join(sep)] *)
Fixpoint join (sep : string) (xs : list string) : string :=
  match xs with
  | [] => ""
  | [x] => x
  | x :: rest => x +:+ sep +:+ join sep rest
  end.

(** All the non-empty suffixes of a string, and the empty one. *)
Fixpoint suffixes (s : string) : list string :=
  s :: match s with "" => [] | String _ s' => suffixes s' end.

Fixpoint all_chars (p : ascii -> bool) (s : string) : bool :=
  match s with
  | "" => true
  | String c s' => p c && all_chars p s'
  end.

Definition code (c : ascii) : N := N_of_ascii c.

Definition in_range (lo hi : N) (c : ascii) : bool :=
  ((lo <=? code c) && (code c <=? hi))%N.

(** The class [\s] of regular expressions, which is also what [trim]
    strips: WhiteSpace and LineTerminator.  Below U+0100 these are
    TAB, LF, VT, FF, CR, SPACE and NO-BREAK SPACE. *)
Definition is_whitespace (c : ascii) : bool :=
  in_range 9 13 c || (code c =? 32)%N || (code c =? 160)%N.

(** What [.] refuses to match: LF and CR (U+2028 and U+2029 lie
    outside the modelled range). *)
Definition is_line_terminator (c : ascii) : bool :=
  (code c =? 10)%N || (code c =? 13)%N.

(** [\d] *)
Definition is_digit (c : ascii) : bool := in_range 48 57 c.

(** [toLowerCase] on one code unit: A-Z, and the Latin-1 capitals
    U+00C0 to U+00DE without the multiplication sign U+00D7. *)
Definition lower_char (c : ascii) : ascii :=
  if in_range 65 90 c || (in_range 192 222 c && negb (code c =? 215)%N)
  then ascii_of_N (code c + 32)
  else c.

Fixpoint toLowerCase (s : string) : string :=
  match s with
  | "" => ""
  | String c s' => String (lower_char c) (toLowerCase s')
  end.

Fixpoint trim_start (s : string) : string :=
  match s with
  | "" => ""
  | String c s' => if is_whitespace c then trim_start s' else s
  end.

Fixpoint trim_end (s : string) : string :=
  match s with
  | "" => ""
  | String c s' =>
      match trim_end s' with
      | "" => if is_whitespace c then "" else String c ""
      | t => String c t
      end
  end.

(** [s.trim()] *)
Definition trim (s : string) : string := trim_end (trim_start s).

(** [s.replace(/\s+/g, r)]: every maximal run of whitespace becomes
    one copy of [r].  [in_run] tells that the previous character was
    whitespace. *)
Fixpoint replace_ws_runs (r : string) (in_run : bool) (s : string) : string :=
  match s with
  | "" => ""
  | String c s' =>
      if is_whitespace c
      then (if in_run then replace_ws_runs r true s'
            else r +:+ replace_ws_runs r true s')
      else String c (replace_ws_runs r false s')
  end.

(** [s.replace(/[^...]/g, '')]: keep the characters of the class. *)
Fixpoint keep_chars (p : ascii -> bool) (s : string) : string :=
  match s with
  | "" => ""
  | String c s' => if p c then String c (keep_chars p s') else keep_chars p s'
  end.

(** [s.split(sep)] for a separator that matches exactly one character
    of the class [p]; the empty string splits into one empty piece. *)
Fixpoint split_on (p : ascii -> bool) (s : string) : list string :=
  match s with
  | "" => [""]
  | String c s' =>
      if p c then "" :: split_on p s'
      else match split_on p s' with
           | piece :: pieces => String c piece :: pieces
           | [] => [String c ""]
           end
  end.

(** The longest prefix of characters of the class, and the rest. *)
Fixpoint span (p : ascii -> bool) (s : string) : string * string :=
  match s with
  | "" => ("", "")
  | String c s' =>
      if p c then let '(a, b) := span p s' in (String c a, b)
      else ("", s)
  end.

Fixpoint drop (n : nat) (s : string) : string :=
  match n, s with
  | O, _ => s
  | S n', String _ s' => drop n' s'
  | S _, "" => ""
  end.

(** [s.substring(0, n)] *)
Fixpoint substring_to (n : nat) (s : string) : string :=
  match n, s with
  | O, _ => ""
  | S n', String c s' => String c (substring_to n' s')
  | S _, "" => ""
  end.

(** The value of a run of decimal digits. *)
Definition digits_value (s : string) : N :=
  let fix go (acc : N) (s : string) : N :=
    match s with
    | "" => acc
    | String c s' => go (10 * acc + (code c - 48))%N s'
    end
  in go 0%N s.

(** [parseFloat(s)] on the strings its only call site passes: digits,
    [.] and [-] (no exponent, no [Infinity]).  The longest prefix that
    is a decimal literal is read: an optional sign, digits, and an
    optional fraction; one of the two digit runs must be non-empty.
    [None] stands for NaN.  The result is the exact value of the
    literal; JavaScript rounds it to the nearest double, as it does
    for a numeric literal of the same digits, so equal values here are
    equal numbers there. *)
Definition parseFloat (s : string) : option Q :=
  let s := trim_start s in
  let '(negative, s) :=
    match s with
    | String "-"%char r => (true, r)
    | String "+"%char r => (false, r)
    | _ => (false, s)
    end in
  let '(int_part, r) := span is_digit s in
  let frac_part :=
    match r with
    | String "."%char r' => fst (span is_digit r')
    | _ => ""
    end in
  if nonempty int_part || nonempty frac_part then
    let scale := Pos.pow 10 (Pos.of_nat (String.length frac_part)) in
    let scale := if nonempty frac_part then scale else 1%positive in
    let mantissa :=
      (digits_value int_part * Npos scale + digits_value frac_part)%N in
    let magnitude := Z.of_N mantissa in
    Some (Qred ((if negative then - magnitude else magnitude)%Z # scale))
  else None.

(** *** Predicates used to state facts about the primitives *)

(** Whether the scan of [replace_ws_runs] is inside a run of
    whitespace once it has read [s]. *)
Fixpoint run_after (in_run : bool) (s : string) : bool :=
  match s with
  | "" => in_run
  | String c s' => run_after (is_whitespace c) s'
  end.

(** A string that does not start with whitespace. *)
Definition starts_clean (s : string) : bool :=
  match s with "" => true | String c _ => negb (is_whitespace c) end.

(** A string that does not end in whitespace. *)
Definition ends_clean (s : string) : bool := negb (run_after false s).

(** [a] and [b] start with the same suffixes of [needle]. *)
Definition agrees_on (a b needle : string) : bool :=
  bool_decide (starts_with a needle = starts_with b needle).

Definition agree_on_suffixes (a b needle : string) : bool :=
  forallb (agrees_on a b) (suffixes needle).

End JsString.

(** ** The prompt builder *)

Module PromptBuilder.
Import JsString.

(** [xs.includes(x)] on an array of strings. *)
Definition array_includes (xs : list string) (x : string) : bool :=
  bool_decide (x ∈ xs).

(** [xs.push(x)] *)
Definition push (xs : list string) (x : string) : list string := xs ++ [x].

(** The body of [buildComprehensivePrompt] up to line 147: the
    [categories] array after the conditional pushes.  [productType] is
    an optional parameter; [if (productType)] holds for a non-empty
    string only. *)
Definition build_categories (questions : list string)
    (productType : option string) (checkboxQuestions : list string)
    : list string :=
  let categories := [] in
  let categories :=
    match productType with
    | Some pt =>
        if nonempty pt
        then push categories ("product type (this is a " +:+ pt +:+ " product)")
        else categories
    | None => categories
    end in
  let categories :=
    if (0 <? length questions)%nat
    then fold_left push questions categories
    else categories in
  let categories :=
    if array_includes checkboxQuestions "productTitle"
    then push categories "product title (compelling, SEO-friendly product title)"
    else categories in
  let categories :=
    if array_includes checkboxQuestions "productDescription"
    then push categories
           "product description (detailed description suitable for e-commerce listing)"
    else categories in
  let categories :=
    if array_includes checkboxQuestions "colorVariant"
    then push categories "color variants (primary colors and color variants visible)"
    else categories in
  let categories :=
    if array_includes checkboxQuestions "seoDescription"
    then push categories
           "SEO description (SEO-optimized meta description under 160 characters)"
    else categories in
  let categories :=
    if array_includes checkboxQuestions "productTags"
    then push categories
           "product tags (5-10 relevant product tags and keywords, comma-separated)"
    else categories in
  let categories :=
    if array_includes checkboxQuestions "altText"
    then push categories "alt text (descriptive alt text for accessibility)"
    else categories in
  categories.

(** The template literal of lines 151-154.  It opens with a line break
    and every line of it is indented by nine spaces. *)
Definition indent : string := "         ".
Definition line_break : string := String LF "".

Definition prompt_head : string :=
  line_break +:+ indent +:+
  "Analyze the image provided and determine the categories of: ".

Definition prompt_tail : string :=
  ". " +:+ line_break +:+ indent +:+
  "Report the values of the categories as classLabels. Be very careful to place these values correctly. "
  +:+ line_break +:+ indent +:+
  "If you are unable to provide a category with a value then set its classLabel to null.".

Definition buildComprehensivePrompt (questions : list string)
    (productType : option string) (checkboxQuestions : list string)
    : string :=
  let categories := build_categories questions productType checkboxQuestions in
  let categoriesString := join ", " categories in
  let finalPrompt := prompt_head +:+ categoriesString +:+ prompt_tail in
  finalPrompt.

(** *** The words of the specification *)

(** The template the specification quotes, on one line. *)
Definition spec_head : string :=
  "Analyze the image provided and determine the categories of: ".

Definition spec_tail : string :=
  ". Report the values of the categories as classLabels. Be very careful to place these values correctly. If you are unable to provide a category with a value then set its classLabel to null.".

Definition spec_template (categoriesString : string) : string :=
  spec_head +:+ categoriesString +:+ spec_tail.

(** The content options of the builder in their declaration order,
    each with its fixed phrase. *)
Definition content_options : list (string * string) :=
  [ ("productTitle", "product title (compelling, SEO-friendly product title)");
    ("productDescription",
     "product description (detailed description suitable for e-commerce listing)");
    ("colorVariant", "color variants (primary colors and color variants visible)");
    ("seoDescription",
     "SEO description (SEO-optimized meta description under 160 characters)");
    ("productTags",
     "product tags (5-10 relevant product tags and keywords, comma-separated)");
    ("altText", "alt text (descriptive alt text for accessibility)") ].

(** Category order as the specification words it: product type first
    when present, the questions in input order, the enabled options in
    declaration order. *)
Definition spec_categories (questions : list string)
    (productType : option string) (enabled : list string) : list string :=
  match productType with
  | Some pt =>
      if nonempty pt
      then ["product type (this is a " +:+ pt +:+ " product)"]
      else []
  | None => []
  end
  ++ questions
  ++ List.map snd
       (List.filter (fun o => array_includes enabled (fst o)) content_options).

(** The person-oriented options and the preamble the specification
    attaches to them. *)
Definition person_options : list string :=
  ["ageRange"; "gender"; "fashionStyle"; "outfitDescription"].

Definition hasPersonFlag (enabled : list string) : bool :=
  existsb (array_includes enabled) person_options.

Definition person_preamble : string :=
  "For any people in the image, analyze: Age (report as range, ex. 20s), Gender (Male/Female), Fashion style (Casual, Formal, Bohemian, Streetwear, Vintage, Chic, Sporty, Edgy), and describe their outfit.".

End PromptBuilder.

(** ** The response extractor *)

Module Extractor.
Import JsString.

(** *** Values and objects *)

(** The values the extractor stores: [null], a string, a number (the
    parsed price) and an array of strings (the tags). *)
Inductive jsval : Type :=
| VNull
| VStr (s : string)
| VNum (q : Q)
| VArr (items : list string).

(** Truthiness, as [!v] tests it. *)
Definition truthy (v : jsval) : bool :=
  match v with
  | VNull => false
  | VStr s => nonempty s
  | VNum q => negb (Qeq_bool q 0)
  | VArr _ => true
  end.

(** The properties every object literal inherits from
    [Object.prototype], each with the string its value turns into when
    it is used as a property key. *)
Definition object_prototype : list (string * string) :=
  [ ("constructor", "function Object() { [native code] }");
    ("__defineGetter__", "function __defineGetter__() { [native code] }");
    ("__defineSetter__", "function __defineSetter__() { [native code] }");
    ("hasOwnProperty", "function hasOwnProperty() { [native code] }");
    ("__lookupGetter__", "function __lookupGetter__() { [native code] }");
    ("__lookupSetter__", "function __lookupSetter__() { [native code] }");
    ("isPrototypeOf", "function isPrototypeOf() { [native code] }");
    ("propertyIsEnumerable", "function propertyIsEnumerable() { [native code] }");
    ("toString", "function toString() { [native code] }");
    ("valueOf", "function valueOf() { [native code] }");
    ("__proto__", "[object Object]");
    ("toLocaleString", "function toLocaleString() { [native code] }") ].

Definition inherited (k : string) : option string :=
  (list_to_map object_prototype : gmap string string) !! k.

(** The [extractedData] object: its own properties, and whether its
    prototype is still [Object.prototype].  It starts as [{}]. *)
Record js_object : Type := JsObject {
  own : gmap string jsval;
  has_prototype : bool
}.

Definition empty_object : js_object :=
  {| own := ∅; has_prototype := true |}.

(** [o.k = v] for a key written in the source: none of them is
    [__proto__], so the property becomes an own property. *)
Definition set_own (o : js_object) (k : string) (v : jsval) : js_object :=
  {| own := <[k := v]> (own o); has_prototype := has_prototype o |}.

(** [o[k] = v] for a computed key and a value that is a string or
    [null] ([None]).  With the key [__proto__] the assignment reaches
    the setter inherited from [Object.prototype]: a string is ignored
    and [null] removes the prototype; no own property is made.  Once
    the prototype is gone the key is an ordinary one. *)
Definition assign (o : js_object) (k : string) (v : option string) : js_object :=
  if bool_decide (k = "__proto__") && has_prototype o then
    match v with
    | Some _ => o
    | None => {| own := own o; has_prototype := false |}
    end
  else set_own o k (from_option VStr VNull v).

(** The truthiness of [o[k]]: the own property when there is one, else
    the inherited one (an object or a function, hence truthy). *)
Definition read_truthy (o : js_object) (k : string) : bool :=
  match own o !! k with
  | Some v => truthy v
  | None => has_prototype o && bool_decide (is_Some (inherited k))
  end.

(** [Object.keys(o).length] *)
Definition keys_length (o : js_object) : nat := size (own o).

(** *** createFieldMapping *)

(** What [createFieldMapping] hands back: a field name, or, when the
    normalized category names a member of [Object.prototype], that
    member; [printed] is the property key it turns into. *)
Inductive field_key : Type :=
| FieldName (name : string)
| PrototypeMember (printed : string).

Definition property_key (k : field_key) : string :=
  match k with
  | FieldName name => name
  | PrototypeMember printed => printed
  end.

(** [if (fieldKey)] *)
Definition key_truthy (k : field_key) : bool :=
  match k with
  | FieldName name => nonempty name
  | PrototypeMember _ => true
  end.

(** [fieldKey === 'literal'] *)
Definition key_is (k : field_key) (literal : string) : bool :=
  match k with
  | FieldName name => bool_decide (name = literal)
  | PrototypeMember _ => false
  end.

(** The synonym table, lines 222-255. *)
Definition mappings : list (string * string) :=
  [ ("product type", "product_type");
    ("focus object", "focus_object");
    ("product title", "product_title");
    ("title", "product_title");
    ("product name", "product_title");
    ("name", "product_title");
    ("product description", "product_description");
    ("description", "product_description");
    ("product details", "product_description");
    ("details", "product_description");
    ("color", "color_variant");
    ("color variant", "color_variant");
    ("color variants", "color_variant");
    ("variant", "color_variant");
    ("product color", "color_variant");
    ("seo description", "seo_description");
    ("seo", "seo_description");
    ("meta description", "seo_description");
    ("product tags", "product_tags");
    ("tags", "product_tags");
    ("keywords", "product_tags");
    ("product keywords", "product_tags");
    ("alt text", "alt_text");
    ("alt", "alt_text");
    ("image alt text", "alt_text");
    ("image description", "alt_text");
    ("price", "price");
    ("product price", "price");
    ("cost", "price");
    ("amount", "price");
    ("size", "size");
    ("chest size", "chest_size") ].

(** [mappings[normalized]]: an own entry of the table, else a member
    of [Object.prototype], else [undefined]. *)
Definition mappings_get (normalized : string) : option field_key :=
  match (list_to_map mappings : gmap string string) !! normalized with
  | Some mapped => Some (FieldName mapped)
  | None => PrototypeMember <$> inherited normalized
  end.

Definition is_key_char (c : ascii) : bool :=
  in_range 97 122 c || is_digit c || (code c =? 95)%N.

Definition sanitize (normalized : string) : string :=
  keep_chars is_key_char (replace_ws_runs "_" false normalized).

(** Lines 212-266.  The argument is a string at both call sites, so
    the [typeof] test of line 213 is left to its second disjunct. *)
Definition createFieldMapping (categoryNameFromAI : string) : field_key :=
  if negb (nonempty (trim categoryNameFromAI)) then FieldName "unknown_field"
  else
    let normalized :=
      replace_ws_runs " " false (trim (toLowerCase categoryNameFromAI)) in
    let sanitized_or_unknown :=
      let sanitized := sanitize normalized in
      if nonempty sanitized then FieldName sanitized
      else FieldName "unknown_field" in
    match mappings_get normalized with
    | Some mappedField =>
        if key_truthy mappedField then mappedField else sanitized_or_unknown
    | None => sanitized_or_unknown
    end.

(** *** The reply of the vision service *)

(** One entry of [classes].  A field that is missing, [undefined] or
    [null] is [None]; [confidence] is only ever logged. *)
Record ClassItem : Type := {
  category : option string;
  classLabel : option string
}.

(** One processed result: [classes] and [text] may each be missing. *)
Record Result : Type := {
  classes : option (list ClassItem);
  text : option string
}.

(** The parameter [processedResults] is typed [any[]].  Of what that
    admits beyond [Result], the model holds what the function reads
    before it looks at the first result: an element may be [null] or
    [undefined], and the [text] of an element may be a value that is
    neither a string nor nullish (a number, a boolean, an object), of
    which the function can tell no more than its truthiness. *)
Inductive TextValue : Type :=
| TextString (s : string)
| TextOther (is_truthy : bool).

Record AnyResult : Type := {
  any_classes : option (list ClassItem);
  any_text : option TextValue
}.

(** An element of [processedResults]; [None] is [null] or
    [undefined]. *)
Definition Element : Type := option AnyResult.

(** A result of the shape of [Result] as an element of the array. *)
Definition Shaped (r : Result) : Element :=
  Some {| any_classes := classes r; any_text := TextString <$> text r |}.

Definition shaped (results : list Result) : list Element :=
  List.map Shaped results.

(** The object the extractor returns. *)
Record ParsedResponse : Type := {
  rawResults : list Element;
  responseText : string;
  extractedData : js_object
}.

(** *** Exceptions *)

(** A computation returns a value or throws.  The exceptions the
    extractor can raise are the [TypeError] of reading a property of
    [undefined] or [null] and that of calling a method a value does
    not have. *)
Inductive outcome (A : Type) : Type :=
| Returns (a : A)
| Throws (message : string).
Arguments Returns {A} a.
Arguments Throws {A} message.

#[global] Instance outcome_bind : MBind outcome := fun A B k m =>
  match m with
  | Returns a => k a
  | Throws message => Throws message
  end.

(** [x.p] for an [x] that may be [undefined]. *)
Definition property {A B : Type} (x : option A) (p : A -> B) : outcome B :=
  match x with
  | Some a => Returns (p a)
  | None => Throws "TypeError: Cannot read properties of undefined"
  end.

(** [a && b], with [b] evaluated only when [a] is truthy. *)
Definition and_then (a : bool) (b : outcome bool) : outcome bool :=
  if a then b else Returns false.

Definition is_defined {A : Type} (x : option A) : bool :=
  match x with Some _ => true | None => false end.

(** Truthiness of a value that is a string or missing. *)
Definition truthy_string (x : option string) : bool :=
  match x with Some s => nonempty s | None => false end.

(** Truthiness of the [text] of an element. *)
Definition truthy_text (x : option TextValue) : bool :=
  match x with
  | Some (TextString s) => nonempty s
  | Some (TextOther is_truthy) => is_truthy
  | None => false
  end.

(** *** The preview logged on entry, lines 192-203 *)

(** One entry of [resultsPreview]; [allKeys], the names of all the
    properties of the result, is left out. *)
Record Preview : Type := {
  index : nat;
  hasText : bool;
  textLength : nat;
  textPreview : string;
  hasClasses : bool;
  classesCount : nat
}.

(** [r.text?.substring(0, 100) + "..." || "NO TEXT"], line 198.  The
    call is skipped for a nullish [text] only: on a value that is not
    a string it throws.  A nullish [text] gives "undefined...", since
    [+] binds tighter than [||]; "NO TEXT" is never chosen. *)
Definition text_preview (result_text : option TextValue) : outcome string :=
  match result_text with
  | Some (TextString s) => Returns (substring_to 100 s +:+ "...")
  | Some (TextOther _) => Throws "TypeError: r.text?.substring is not a function"
  | None => Returns "undefined..."
  end.

(** [r.text?.length || 0], line 197, where it is logged: for a string
    or a nullish [text]. *)
Definition text_length (result_text : option TextValue) : nat :=
  match result_text with
  | Some (TextString s) => String.length s
  | _ => 0
  end.

(** The callback of [processedResults.map], lines 194-202.  Reading
    [r.text] throws when [r] is [null] or [undefined]. *)
Definition preview_entry (i : nat) (r : Element) : outcome Preview :=
  result_text ← property r any_text;
  preview ← text_preview result_text;
  result_classes ← property r any_classes;
  Returns {| index := i;
             hasText := truthy_text result_text;
             textLength := text_length result_text;
             textPreview := preview;
             hasClasses := is_defined result_classes;
             classesCount := length (default [] result_classes) |}.

(** [processedResults.map((r, i) => ...)] from index [i] on: the
    callback runs on the elements in order, and the first one that
    throws ends the call. *)
Fixpoint preview_from (i : nat) (processedResults : list Element)
    : outcome (list Preview) :=
  match processedResults with
  | [] => Returns []
  | r :: rest =>
      entry ← preview_entry i r;
      entries ← preview_from (S i) rest;
      Returns (entry :: entries)
  end.

Definition entry_preview (processedResults : list Element)
    : outcome (list Preview) :=
  preview_from 0 processedResults.

(** *** The structured path, lines 283-351 *)

(** [extractedValue.split(/[,;]/).map(tag => tag.trim()).filter(tag => tag)] *)
Definition is_tag_separator (c : ascii) : bool :=
  (code c =? 44)%N || (code c =? 59)%N.

Definition split_tags (extractedValue : string) : list string :=
  List.filter nonempty (List.map trim (split_on is_tag_separator extractedValue)).

(** [String(extractedValue).replace(/[^\d.-]/g, '')] *)
Definition is_price_char (c : ascii) : bool :=
  is_digit c || (code c =? 46)%N || (code c =? 45)%N.

Definition price_string (extractedValue : string) : string :=
  keep_chars is_price_char extractedValue.

(** What the loop over [classes] carries from item to item. *)
Record loop_state : Type := {
  data : js_object;
  combinedText : string
}.

(** The body of the loop, lines 293-342, for one [classItem]. *)
Definition process_class_item (st : loop_state) (classItem : ClassItem)
    : loop_state :=
  if truthy_string (category classItem) then
    let categoryNameFromAI := default "" (category classItem) in
    let valueFromAI := classLabel classItem in
    let fieldKey := createFieldMapping categoryNameFromAI in
    if key_truthy fieldKey then
      let extractedValue :=
        if bool_decide (valueFromAI = Some "null") then None else valueFromAI in
      let data' :=
        match extractedValue with
        | Some value =>
            if key_is fieldKey "product_tags" then
              set_own (data st) "product_tags" (VArr (split_tags value))
            else if key_is fieldKey "price" then
              match parseFloat (price_string value) with
              | Some priceValue => set_own (data st) "price" (VNum priceValue)
              | None => set_own (data st) "price_text" (VStr value)
              end
            else assign (data st) (property_key fieldKey) (Some value)
        | None => assign (data st) (property_key fieldKey) None
        end in
      {| data := data';
         combinedText :=
           combinedText st +:+ categoryNameFromAI +:+ ": " +:+
           default "null" extractedValue +:+ String LF "" |}
    else st
  else st.

(** *** The fallback path, lines 361-374 *)

Definition is_not_colon (c : ascii) : bool := negb (code c =? 58)%N.

(** The candidates for the split between [\s*] and [(.+)]: the greedy
    [\s*] first takes all [k] leading whitespace characters and then
    gives them back one at a time. *)
Fixpoint countdown (k : nat) : list nat :=
  k :: match k with O => [] | S k' => countdown k' end.

(** [line.match(/^([^:]+):\s*(.+)$/)]: the two groups of the match.
    The key is the non-empty run before the first colon; the value is
    what [(.+)$] matches, a non-empty remainder of the line free of
    line terminators. *)
Definition match_key_value (line : string) : option (string * string) :=
  let '(key, rest) := span is_not_colon line in
  match key, rest with
  | String _ _, String _ after =>
      let k := String.length (fst (span is_whitespace after)) in
      let fits (j : nat) : bool :=
        nonempty (drop j after) &&
        all_chars (fun c => negb (is_line_terminator c)) (drop j after) in
      match List.find fits (countdown k) with
      | Some j => Some (key, drop j after)
      | None => None
      end
  | _, _ => None
  end.

(** The body of the loop over the lines, lines 363-373. *)
Definition process_line (o : js_object) (line : string) : js_object :=
  match match_key_value line with
  | Some (group1, group2) =>
      let keyFromText := trim group1 in
      let valueFromText := trim group2 in
      let fieldKey := createFieldMapping keyFromText in
      if key_truthy fieldKey && negb (read_truthy o (property_key fieldKey))
      then assign o (property_key fieldKey) (Some valueFromText)
      else o
  | None => o
  end.

(** [firstResult.text.split('\n').filter(line => line.trim())] *)
Definition text_lines (t : string) : list string :=
  List.filter (fun line => nonempty (trim line))
    (split_on (fun c => (code c =? 10)%N) t).

(** *** parseVisualIntelligenceResponse *)

(** Lines 280-352: the state after the structured path. *)
Definition structured_path (firstResult : option AnyResult)
    (parsed : ParsedResponse) : outcome ParsedResponse :=
  result_classes ← property firstResult any_classes;
  has_classes ←
    and_then (is_defined result_classes)
      (items ← property result_classes id;
       Returns (0 <? length items)%nat);
  if has_classes : bool then
    items ← property result_classes id;
    let final :=
      fold_left process_class_item items
        {| data := extractedData parsed; combinedText := "" |} in
    Returns
      {| rawResults := rawResults parsed;
         responseText :=
           if nonempty (trim (combinedText final))
           then trim (combinedText final)
           else responseText parsed;
         extractedData := data final |}
  else Returns parsed.

(** Line 357: the guard of the fallback path. *)
Definition fallback_guard (firstResult : option AnyResult)
    (parsed : ParsedResponse) : outcome bool :=
  and_then (keys_length (extractedData parsed) =? 0)%nat
    (result_text ← property firstResult any_text;
     Returns (truthy_text result_text)).

(** The receiver of [firstResult.text.split]: a string; the call
    throws on any other value. *)
Definition split_receiver (result_text : option TextValue) : outcome string :=
  match result_text with
  | Some (TextString t) => Returns t
  | Some (TextOther _) =>
      Throws "TypeError: firstResult.text.split is not a function"
  | None => Throws "TypeError: Cannot read properties of undefined"
  end.

(** Lines 357-375. *)
Definition fallback_path (firstResult : option AnyResult)
    (parsed : ParsedResponse) : outcome ParsedResponse :=
  enter ← fallback_guard firstResult parsed;
  if enter : bool then
    result_text ← property firstResult any_text;
    t ← split_receiver result_text;
    Returns
      {| rawResults := rawResults parsed;
         responseText := t;
         extractedData :=
           fold_left process_line (text_lines t) (extractedData parsed) |}
  else Returns parsed.

(** Lines 205-209: the response before anything is extracted. *)
Definition initial_response (processedResults : list Element) : ParsedResponse :=
  {| rawResults := processedResults;
     responseText := "";
     extractedData := empty_object |}.

(** The function, lines 191-391.  The preview of lines 192-203 is
    computed first, for every element; its value is only logged.  A
    first element that is [null] or [undefined] is read as
    [undefined]. *)
Definition parseVisualIntelligenceResponse (processedResults : list Element)
    : outcome ParsedResponse :=
  resultsPreview ← entry_preview processedResults;
  let parsedResponse := initial_response processedResults in
  if (0 <? length processedResults)%nat then
    let firstResult := mjoin (processedResults !! 0%nat) in
    parsedResponse ← structured_path firstResult parsedResponse;
    fallback_path firstResult parsedResponse
  else Returns parsedResponse.

(** *** The extractor in closed form

    What the function returns for a non-empty list of results of the
    shape of [Result], written without the exception monad;
    [parse_cons] below proves the two agree. *)

Definition initial_state : loop_state :=
  {| data := empty_object; combinedText := "" |}.

(** The loop state after all the [classes] of the first result. *)
Definition structured_state (r : Result) : loop_state :=
  fold_left process_class_item (default [] (classes r)) initial_state.

Definition enters_fallback (r : Result) : bool :=
  (keys_length (data (structured_state r)) =? 0)%nat && truthy_string (text r).

Definition final_text (r : Result) : string :=
  if enters_fallback r then default "" (text r)
  else trim (combinedText (structured_state r)).

Definition final_data (r : Result) : js_object :=
  if enters_fallback r
  then fold_left process_line (text_lines (default "" (text r)))
         (data (structured_state r))
  else data (structured_state r).

End Extractor.

(** ** Pop definitions *)

(** The [PopDefinition] objects the client and the test script hand to
    [changePop]: components with an optional id, ability, parameters
    and forward targets. *)
Module Pop.

Inductive PopComponentType : Type := INFERENCE.

(** One entry of [params.prompts]. *)
Record PromptEntry : Type := {
  prompt : string;
  label : option string
}.

Record Params : Type := {
  prompts : list PromptEntry;
  confidence_threshold : option Q
}.

Inductive PopComponent : Type :=
| Component (type : PopComponentType) (id : option nat)
    (ability : option string) (params : option Params)
    (forward_targets : option (list PopComponent)).

Record PopDefinition : Type := {
  components : list PopComponent
}.

(** Every prompt text a component carries, its forward targets
    included, in the order of the object. *)
Fixpoint component_prompts (c : PopComponent) : list string :=
  match c with
  | Component _ _ _ params targets =>
      match params with
      | Some p => List.map prompt (prompts p)
      | None => []
      end
      ++ match targets with
         | Some ts => List.concat (List.map component_prompts ts)
         | None => []
         end
  end.

Definition pop_prompts (pop : PopDefinition) : list string :=
  List.concat (List.map component_prompts (components pop)).

End Pop.

(** ** The client around the two functions *)

Module Client.
Import JsString PromptBuilder Extractor Pop.

(** [createVisualIntelligencePop], lines 168-186 of the client. *)
Definition createVisualIntelligencePop (questions : list string)
    (productType : option string) (checkboxQuestions : list string)
    : PopDefinition :=
  let comprehensivePrompt :=
    buildComprehensivePrompt questions productType checkboxQuestions in
  {| components :=
       [Component INFERENCE None (Some "eyepop.image-contents:latest")
          (Some {| prompts := [{| prompt := comprehensivePrompt; label := None |}];
                   confidence_threshold := None |})
          None] |}.

(** One image of a batch; [data] is the content of a [Buffer]. *)
Record Image : Type := {
  path : option string;
  url : option string;
  data : option string;
  mimeType : option string
}.

(** The three processing methods [processBatch] awaits.  They talk to
    the vision service: each is a function of the state of the world
    [W] (connection, service) that returns the new state and either a
    parsed response or the message of the error it throws.  The
    arguments after the image are [questions], [productType] and
    [checkboxQuestions]. *)
Record Processors (W : Type) : Type := {
  processImageByPath :
    string -> option (list string) -> option string -> list string ->
    W -> W * outcome ParsedResponse;
  processImageByUrl :
    string -> option (list string) -> option string -> list string ->
    W -> W * outcome ParsedResponse;
  processImageData :
    string -> string -> option (list string) -> option string -> list string ->
    W -> W * outcome ParsedResponse
}.
Arguments processImageByPath {W}.
Arguments processImageByUrl {W}.
Arguments processImageData {W}.

(** One entry of the array [processBatch] returns. *)
Inductive BatchEntry : Type :=
| Succeeded (image : string) (result : ParsedResponse)
| Failed (image : string) (error : string).

(** [image.path || image.url || 'uploaded-image'] *)
Definition image_label (image : Image) : string :=
  if truthy_string (path image) then default "" (path image)
  else if truthy_string (url image) then default "" (url image)
  else "uploaded-image".

(** The [try] block of lines 623-635: the call the image selects. *)
Definition process_image {W : Type} (client : Processors W) (image : Image)
    (questions : option (list string)) (productType : option string)
    (checkboxQuestions : list string) (w : W) : W * outcome ParsedResponse :=
  if truthy_string (path image) then
    processImageByPath client (default "" (path image))
      questions productType checkboxQuestions w
  else if truthy_string (url image) then
    processImageByUrl client (default "" (url image))
      questions productType checkboxQuestions w
  else if is_defined (data image) && truthy_string (mimeType image) then
    processImageData client (default "" (data image)) (default "" (mimeType image))
      questions productType checkboxQuestions w
  else
    (w, Throws "Invalid image format. Must provide path, url, or data+mimeType").

(** The body of the loop, lines 622-648, with its [catch]. *)
Definition batch_step {W : Type} (client : Processors W)
    (questions : option (list string)) (productType : option string)
    (checkboxQuestions : list string)
    (acc : W * list BatchEntry) (image : Image) : W * list BatchEntry :=
  let '(w, results) := acc in
  let '(w', attempt) :=
    process_image client image questions productType checkboxQuestions w in
  match attempt with
  | Returns result => (w', results ++ [Succeeded (image_label image) result])
  | Throws message => (w', results ++ [Failed (image_label image) message])
  end.

(** [processBatch], lines 614-651. *)
Definition processBatch {W : Type} (client : Processors W) (images : list Image)
    (questions : option (list string)) (productType : option string)
    (checkboxQuestions : list string) (w : W) : W * list BatchEntry :=
  fold_left (batch_step client questions productType checkboxQuestions)
    images (w, []).

Definition entry_label (e : BatchEntry) : string :=
  match e with
  | Succeeded image _ => image
  | Failed image _ => image
  end.

End Client.

(** ** The processing route *)

(** The action that processes an uploaded image,
    [app/routes/api.shopify-export.ts], lines 587-1047. *)
Module ProcessRoute.
Import JsString PromptBuilder Extractor Pop Client.

(** A value [JSON.parse] returns. *)
Inductive json : Type :=
| JNull
| JBool (b : bool)
| JNum (q : Q)
| JStr (s : string)
| JArr (items : list json)
| JObj (fields : list (string * json)).

Definition json_truthy (v : json) : bool :=
  match v with
  | JNull => false
  | JBool b => b
  | JNum q => negb (Qeq_bool q 0)
  | JStr s => nonempty s
  | JArr _ => true
  | JObj _ => true
  end.

(** The own property [key] of a parsed object; of fields with the same
    name [JSON.parse] keeps the last. *)
Fixpoint last_field (fields : list (string * json)) (key : string) : option json :=
  match fields with
  | [] => None
  | (name, v) :: rest =>
      match last_field rest key with
      | Some later => Some later
      | None => if bool_decide (name = key) then Some v else None
      end
  end.

(** The test [if (parsedContentConfig[key])] for a key of
    [configMapping].  None of these keys is a property of a string, a
    number, a boolean, an array or [Object.prototype]; reading a
    property of [null] throws. *)
Definition config_flag (parsedContentConfig : json) (key : string) : outcome bool :=
  match parsedContentConfig with
  | JNull => Throws "TypeError: Cannot read properties of null"
  | JObj fields =>
      Returns (match last_field fields key with
               | Some v => json_truthy v
               | None => false
               end)
  | _ => Returns false
  end.

(** [configMapping], lines 680-687, as [Object.entries] lists it. *)
Definition configMapping : list (string * string) :=
  [ ("productTitle", "productTitle");
    ("productDescription", "productDescription");
    ("colorVariant", "colorVariant");
    ("seoDescription", "seoDescription");
    ("productTags", "productTags");
    ("altText", "altText") ].

(** The [forEach] of lines 689-694 from a given entry on: the array
    [checkboxQuestions] as the loop leaves it, whether it ends or
    throws. *)
Fixpoint push_enabled (parsedContentConfig : json)
    (entries : list (string * string)) (checkboxQuestions : list string)
    : list string :=
  match entries with
  | [] => checkboxQuestions
  | (key, value) :: rest =>
      match config_flag parsedContentConfig key with
      | Returns true =>
          push_enabled parsedContentConfig rest (push checkboxQuestions value)
      | Returns false => push_enabled parsedContentConfig rest checkboxQuestions
      | Throws _ => checkboxQuestions
      end
  end.

(** Step 6 of the action, lines 672-708.  [JSON_parse] is the parser of
    the platform; when it throws, or the loop does, the [catch] warns
    and the request goes on with what was pushed so far. *)
Definition parse_content_config (JSON_parse : string -> outcome json)
    (contentConfig : option string) : list string :=
  let checkboxQuestions := [] in
  if truthy_string contentConfig then
    match JSON_parse (default "" contentConfig) with
    | Returns parsedContentConfig =>
        push_enabled parsedContentConfig configMapping checkboxQuestions
    | Throws _ => checkboxQuestions
    end
  else checkboxQuestions.

(** [productType || undefined], line 773. *)
Definition or_undefined (productType : option string) : option string :=
  if truthy_string productType then productType else None.

(** The Pop the route makes the client set for a request: lines
    769-775 of the route with line 440 of the client. *)
Definition request_pop (JSON_parse : string -> outcome json)
    (questions : list string) (productType contentConfig : option string)
    : PopDefinition :=
  createVisualIntelligencePop questions (or_undefined productType)
    (parse_content_config JSON_parse contentConfig).

(** Line 848: the data URL the route returns for the uploaded image,
    from the type of the file and the base64 text of its bytes. *)
Definition imageSrc (type base64 : string) : string :=
  "data:" +:+ type +:+ ";base64," +:+ base64.

End ProcessRoute.

(** ** The export route *)

(** The action that creates the products and its helper
    [dataURLtoBlob], [app/routes/api.shopify-export.ts], lines 8-496. *)
Module ShopifyExport.
Import JsString Extractor.

(** [s.replace(/\n/g, r)] *)
Fixpoint replace_line_breaks (r : string) (s : string) : string :=
  match s with
  | "" => ""
  | String c s' =>
      if (code c =? 10)%N then r +:+ replace_line_breaks r s'
      else String c (replace_line_breaks r s')
  end.

(** [String(n)] for a natural number. *)
Definition decimal (n : nat) : string :=
  NilEmpty.string_of_uint (Nat.to_uint n).

(** [result.rawJson], as far as the mapping reads it. *)
Record RawJson : Type := {
  raw_extractedData : option (gmap string jsval);
  raw_productType : option string;
  raw_defaultVendor : option string
}.

(** One analysis result of the request body. *)
Record AnalysisResult : Type := {
  rawJson : option RawJson;
  result_id : option string;
  result_productType : option string;
  result_defaultVendor : option string
}.

(** What the mapping hands to [productCreate], and the alt text it
    keeps for the image. *)
Record ProductInput : Type := {
  title : jsval;
  descriptionHtml : string;
  productType : string;
  vendor : string;
  tags : list string;
  status : string;
  seo_title : string;
  seo_description : string;
  altText : jsval
}.

(** [a || b] on values of [extractedData] that may be missing. *)
Definition or_else (a : option jsval) (b : jsval) : jsval :=
  match a with
  | Some v => if truthy v then v else b
  | None => b
  end.

(** [a || b] on optional strings. *)
Definition first_truthy (a b : option string) : option string :=
  if truthy_string a then a else b.

(** [v.substring(0, n)] for the variable [name]: a method of strings
    only; on another value the call throws, with the message of V8. *)
Definition substring_of (name : string) (v : jsval) (n : nat) : outcome string :=
  match v with
  | VStr s => Returns (substring_to n s)
  | _ => Throws (name +:+ ".substring is not a function")
  end.

(** [String(v)], also what a template literal does to [v].
    [Number_toString] is the printer of numbers of the platform. *)
Definition to_string (Number_toString : Q -> string) (v : jsval) : string :=
  match v with
  | VNull => "null"
  | VStr s => s
  | VNum q => Number_toString q
  | VArr items => join "," items
  end.

(** Lines 199-205: the tags of the product. *)
Definition product_tags (stored : option jsval) (productType : string)
    : list string :=
  let fallback := [productType; "AI-generated"] in
  let productTags := or_else stored (VArr fallback) in
  let productTags :=
    match productTags with
    | VStr s => VArr (split_tags s)
    | other => other
    end in
  match productTags with
  | VArr items => if (length items =? 0)%nat then fallback else items
  | _ => fallback
  end.

(** Lines 163-245 for the result at index [i]: the fields of the
    product, or the message of the error the [catch] of line 474
    receives.  The image source is a string or missing, and is left
    out, as is the price of the variant (lines 247-254). *)
Definition product_input (Number_toString : Q -> string)
    (result : AnalysisResult) (i : nat) : outcome ProductInput :=
  let stored : option (gmap string jsval) := rawJson result ≫= raw_extractedData in
  let fileName : jsval :=
    or_else (stored ≫= (fun fields => fields !! "product_title"))
      (VStr (default ("Product " +:+ decimal (i + 1))
               (first_truthy (result_id result) None))) in
  let extractedData : gmap string jsval := default ∅ stored in
  let productType :=
    default "General"
      (first_truthy (rawJson result ≫= raw_productType)
         (first_truthy (result_productType result) None)) in
  let defaultVendor :=
    default "EyePop AI Generated"
      (first_truthy (rawJson result ≫= raw_defaultVendor)
         (first_truthy (result_defaultVendor result) None)) in
  let productTitle :=
    or_else (extractedData !! "product_title")
      (VStr ("AI Generated: " +:+ to_string Number_toString fileName)) in
  let productDescription :=
    or_else (extractedData !! "product_description")
      (VStr "AI-generated product description.") in
  let productTags := product_tags (extractedData !! "product_tags") productType in
  seoDescription ←
    (if truthy (or_else (extractedData !! "seo_description") VNull)
     then Returns (or_else (extractedData !! "seo_description") VNull)
     else short ← substring_of "productDescription" productDescription 320;
          Returns (VStr short));
  let altText := or_else (extractedData !! "alt_text") productTitle in
  logged ← substring_of "productTitle" productTitle 50;
  seoTitle ← substring_of "productTitle" productTitle 70;
  seoShort ← substring_of "seoDescription" seoDescription 320;
  Returns
    {| title := productTitle;
       descriptionHtml :=
         "<p>" +:+
         replace_line_breaks "</p><p>" (to_string Number_toString productDescription)
         +:+ "</p>";
       productType := productType;
       vendor := defaultVendor;
       tags := productTags;
       status := "DRAFT";
       seo_title := seoTitle;
       seo_description := seoShort;
       altText := altText |}.

(** [.*?;] from the start of [s]: the characters before the first
    semicolon, none of which may end a line. *)
Fixpoint lazy_to_semicolon (s : string) : option string :=
  match s with
  | "" => None
  | String c rest =>
      if (code c =? 59)%N then Some ""
      else if is_line_terminator c then None
      else String c <$> lazy_to_semicolon rest
  end.

(** [s.match(/:(.*?);/)]: the group of the leftmost match, or [None]
    for [null]. *)
Fixpoint match_mime (s : string) : option string :=
  match s with
  | "" => None
  | String c rest =>
      if (code c =? 58)%N
      then match lazy_to_semicolon rest with
           | Some group => Some group
           | None => match_mime rest
           end
      else match_mime rest
  end.

Definition is_comma (c : ascii) : bool := (code c =? 44)%N.
Definition is_slash (c : ascii) : bool := (code c =? 47)%N.

(** What [dataURLtoBlob] returns; of the blob, the bytes. *)
Record BlobParts : Type := {
  blob_bytes : string;
  mimeType : string;
  filename : string
}.

(** [String(n)] for the milliseconds of a time stamp. *)
Definition decimal_N (n : N) : string :=
  NilEmpty.string_of_uint (N.to_uint n).

(** [dataURLtoBlob], lines 8-29.  [atob] is the decoder of the
    platform, applied to [arr[1]], which may be missing; [now] is the
    value of [Date.now()]. *)
Definition dataURLtoBlob (atob : option string -> outcome string) (now : N)
    (dataURL : string) : outcome BlobParts :=
  let arr := split_on is_comma dataURL in
  let mimeMatch := match_mime (default "" (arr !! 0%nat)) in
  let mimeType := default "image/jpeg" mimeMatch in
  bstr ← atob (arr !! 1%nat);
  let extension :=
    match split_on is_slash mimeType !! 1%nat with
    | Some e => if nonempty e then e else "jpg"
    | None => "jpg"
    end in
  let filename := "product-image-" +:+ decimal_N now +:+ "." +:+ extension in
  Returns {| blob_bytes := bstr; mimeType := mimeType; filename := filename |}.

End ShopifyExport.

(** ** The Pop generator of the configuration test *)

(** [test/test-pop-config.js], lines 37-222. *)
Module TestPop.
Import JsString PromptBuilder Pop.

(** [checkboxQuestions.some(q => [...].includes(q))], lines 44-46. *)
Definition hasPersonQuestions (checkboxQuestions : list string) : bool :=
  existsb (array_includes person_options) checkboxQuestions.

(** The prompts of the checkboxes in person analysis, lines 62-93. *)
Definition person_checkbox_prompts (checkboxQuestions : list string)
    : list string :=
  let checkboxPrompts := [] in
  let checkboxPrompts :=
    if array_includes checkboxQuestions "productTitle"
    then push checkboxPrompts "Generate a compelling product title for this item"
    else checkboxPrompts in
  let checkboxPrompts :=
    if array_includes checkboxQuestions "productDescription"
    then push checkboxPrompts "Generate a detailed product description for this item"
    else checkboxPrompts in
  let checkboxPrompts :=
    if array_includes checkboxQuestions "colorVariant"
    then push checkboxPrompts
           "Identify the primary colors and any color variants visible in this product"
    else checkboxPrompts in
  let checkboxPrompts :=
    if array_includes checkboxQuestions "seoDescription"
    then push checkboxPrompts
           "Generate an SEO-optimized meta description for this product"
    else checkboxPrompts in
  let checkboxPrompts :=
    if array_includes checkboxQuestions "productTags"
    then push checkboxPrompts
           "Generate relevant product tags and keywords for this item"
    else checkboxPrompts in
  let checkboxPrompts :=
    if array_includes checkboxQuestions "altText"
    then push checkboxPrompts
           "Generate descriptive alt text for this product image for accessibility"
    else checkboxPrompts in
  let checkboxPrompts :=
    if array_includes checkboxQuestions "ageRange"
    then push checkboxPrompts
           "Determine the age range of the person (report as range, ex. 20s)"
    else checkboxPrompts in
  let checkboxPrompts :=
    if array_includes checkboxQuestions "gender"
    then push checkboxPrompts "Identify the gender (Male/Female)"
    else checkboxPrompts in
  let checkboxPrompts :=
    if array_includes checkboxQuestions "fashionStyle"
    then push checkboxPrompts
           "Identify the fashion style (Casual, Formal, Bohemian, Streetwear, Vintage, Chic, Sporty, Edgy)"
    else checkboxPrompts in
  let checkboxPrompts :=
    if array_includes checkboxQuestions "outfitDescription"
    then push checkboxPrompts "Describe their outfit in detail"
    else checkboxPrompts in
  checkboxPrompts.

(** The [promptText] of lines 96-112. *)
Definition person_prompt_text (prompts checkboxQuestions : list string) : string :=
  let allPrompts := prompts in
  let combinedPrompts := allPrompts ++ person_checkbox_prompts checkboxQuestions in
  let promptText := "Analyze the image provided and determine the following:" in
  let promptText :=
    if hasPersonQuestions checkboxQuestions
    then promptText +:+ (" " +:+ person_preamble)
    else promptText in
  let promptText :=
    if (0 <? length combinedPrompts)%nat
    then promptText +:+ (" Additionally: " +:+ join ". " combinedPrompts)
    else promptText in
  promptText +:+
  " Report the values of the categories as classLabels. If you are unable to provide a category with a value then set its classLabel to null.".

(** [createPersonAnalysisPop], lines 55-132. *)
Definition createPersonAnalysisPop (prompts checkboxQuestions : list string)
    : PopDefinition :=
  let promptText := person_prompt_text prompts checkboxQuestions in
  {| components :=
       [Component INFERENCE None None None
          (Some [Component INFERENCE None (Some "eyepop.image-contents:latest")
                   (Some {| prompts := [{| prompt := promptText; label := None |}];
                            confidence_threshold := None |})
                   None])] |}.

(** The checkbox prompts of the comprehensive Pop, lines 153-190. *)
Definition comprehensive_checkbox_prompts (checkboxQuestions : list string)
    : list PromptEntry :=
  let entry (p l : string) := {| prompt := p; label := Some l |} in
  let checkboxPrompts := [] in
  let checkboxPrompts :=
    if array_includes checkboxQuestions "productTitle"
    then checkboxPrompts ++
         [entry "Generate a compelling product title for this item" "product_title"]
    else checkboxPrompts in
  let checkboxPrompts :=
    if array_includes checkboxQuestions "productDescription"
    then checkboxPrompts ++
         [entry "Generate a detailed product description for this item"
            "product_description"]
    else checkboxPrompts in
  let checkboxPrompts :=
    if array_includes checkboxQuestions "colorVariant"
    then checkboxPrompts ++
         [entry "Identify the primary colors and any color variants visible in this product"
            "color_variant"]
    else checkboxPrompts in
  let checkboxPrompts :=
    if array_includes checkboxQuestions "seoDescription"
    then checkboxPrompts ++
         [entry "Generate an SEO-optimized meta description for this product"
            "seo_description"]
    else checkboxPrompts in
  let checkboxPrompts :=
    if array_includes checkboxQuestions "productTags"
    then checkboxPrompts ++
         [entry "Generate relevant product tags and keywords for this item"
            "product_tags"]
    else checkboxPrompts in
  let checkboxPrompts :=
    if array_includes checkboxQuestions "altText"
    then checkboxPrompts ++
         [entry "Generate descriptive alt text for this product image for accessibility"
            "alt_text"]
    else checkboxPrompts in
  checkboxPrompts.

(** [createComprehensivePop], lines 135-222. *)
Definition createComprehensivePop (prompts : list string)
    (productType : option string) (checkboxQuestions : list string)
    : PopDefinition :=
  let userPrompts :=
    List.map (fun p => {| prompt := p; label := Some p |}) prompts in
  let userPrompts :=
    match productType with
    | Some pt =>
        if nonempty pt
        then {| prompt := "Analyze this " +:+ pt +:+ " product";
                label := Some "main_product" |} :: userPrompts
        else userPrompts
    | None => userPrompts
    end in
  let allPromptObjects :=
    userPrompts ++ comprehensive_checkbox_prompts checkboxQuestions in
  {| components :=
       [ Component INFERENCE (Some 1%nat) (Some "eyepop.image-contents:latest")
           (Some {| prompts := allPromptObjects;
                    confidence_threshold := Some (25 # 100) |})
           None;
         Component INFERENCE (Some 2%nat) (Some "eyepop.localize-objects:latest")
           (Some {| prompts := allPromptObjects;
                    confidence_threshold := Some (25 # 100) |})
           None ] |}.

(** [createTestPop], lines 37-53. *)
Definition createTestPop (questions : list string)
    (productType : option string) (checkboxQuestions : list string)
    : PopDefinition :=
  if hasPersonQuestions checkboxQuestions
  then createPersonAnalysisPop questions checkboxQuestions
  else createComprehensivePop questions productType checkboxQuestions.

End TestPop.

(** ** Predicates of the statements *)

Module Invariants.
Import JsString Extractor.

(** [[A-Z]] *)
Definition is_upper (c : ascii) : bool := in_range 65 90 c.

(** The shape of the [extractedData] the extractor builds: an array is
    stored under product_tags only, a number under price only. *)
Definition well_typed (fields : gmap string jsval) : Prop :=
  forall k v, fields !! k = Some v ->
    match v with
    | VArr _ => k = "product_tags"
    | VNum _ => k = "price"
    | _ => True
    end.

(** A character a MIME type can hold inside a data URL: no comma, no
    semicolon, no line terminator. *)
Definition mime_char (c : ascii) : bool :=
  negb (ShopifyExport.is_comma c || (code c =? 59)%N || is_line_terminator c).

(** An element the entry preview gets through: an object whose
    [text] is a string or nullish. *)
Definition readable (e : Element) : bool :=
  match e with
  | Some r => match any_text r with Some (TextOther _) => false | _ => true end
  | None => false
  end.

End Invariants.

(** * Facts *)

Import JsString PromptBuilder Extractor Invariants.

(** ** Strings *)

Section StringFacts.

Lemma append_cons c s t : String c s +:+ t = String c (s +:+ t).
Proof. reflexivity. Qed.

Lemma append_assoc (s t u : string) : (s +:+ t) +:+ u = s +:+ t +:+ u.
Proof. induction s as [|c s IH]; [done|]. rewrite !append_cons. by f_equal. Qed.

(** [replace] works through a concatenation piece by piece, carrying
    over whether the first piece ended inside a run of whitespace. *)
Lemma replace_ws_runs_app r b x y :
  replace_ws_runs r b (x +:+ y)
  = replace_ws_runs r b x +:+ replace_ws_runs r (run_after b x) y.
Proof.
  revert b. induction x as [|c x IH]; intros b; [done|].
  rewrite append_cons. simpl. destruct (is_whitespace c).
  - destruct b; rewrite IH; [done|]. by rewrite append_assoc.
  - by rewrite IH.
Qed.

(** A prefix without the first character of the needle hides no
    occurrence of it. *)
Lemma includes_skip needle_head needle_tail p x :
  all_chars (fun c => negb (Ascii.eqb needle_head c)) p = true ->
  includes (p +:+ x) (String needle_head needle_tail)
  = includes x (String needle_head needle_tail).
Proof.
  induction p as [|c p IH]; [done|].
  rewrite append_cons. cbn [all_chars includes starts_with].
  intros [Hc Hp]%andb_prop.
  apply negb_true_iff in Hc. rewrite Hc. simpl. auto.
Qed.

Lemma agree_on_suffixes_head a b needle :
  agree_on_suffixes a b needle = true ->
  starts_with a needle = starts_with b needle.
Proof.
  unfold agree_on_suffixes.
  destruct needle; simpl; intros [H _]%andb_prop;
    by apply bool_decide_eq_true in H.
Qed.

Lemma agree_on_suffixes_tail a b c needle :
  agree_on_suffixes a b (String c needle) = true ->
  agree_on_suffixes a b needle = true.
Proof. unfold agree_on_suffixes. simpl. by intros [_ H]%andb_prop. Qed.

Lemma starts_with_padded a b s needle :
  agree_on_suffixes a b needle = true ->
  starts_with (s +:+ a) needle = starts_with (s +:+ b) needle.
Proof.
  revert needle. induction s as [|c s IH]; intros needle H.
  - by apply agree_on_suffixes_head.
  - rewrite !append_cons. destruct needle as [|d needle]; [done|].
    simpl. destruct (Ascii.eqb d c); [|done].
    eapply IH, agree_on_suffixes_tail, H.
Qed.

(** Two endings that no suffix of the needle tells apart can be
    swapped behind any string without changing whether the needle
    occurs. *)
Lemma includes_padded a b s needle :
  agree_on_suffixes a b needle = true ->
  includes a needle = includes b needle ->
  includes (s +:+ a) needle = includes (s +:+ b) needle.
Proof.
  intros H H0. induction s as [|c s IH]; [done|].
  rewrite !append_cons. cbn [includes]. rewrite IH. f_equal.
  by apply (starts_with_padded a b (String c s)).
Qed.

Lemma trim_start_clean s : starts_clean s = true -> trim_start s = s.
Proof. destruct s as [|c s]; [done|]. simpl. by intros ->%negb_true_iff. Qed.

Lemma starts_clean_trim_start s : starts_clean (trim_start s) = true.
Proof.
  induction s as [|c s IH]; [done|]. simpl.
  destruct (is_whitespace c) eqn:Hc; [done|]. simpl. by rewrite Hc.
Qed.

Lemma starts_clean_trim_end s :
  starts_clean s = true -> starts_clean (trim_end s) = true.
Proof.
  destruct s as [|c s]; [done|]. simpl. intros Hc.
  destruct (trim_end s); [|done].
  apply negb_true_iff in Hc. rewrite Hc. simpl. by rewrite Hc.
Qed.

Lemma trim_end_idem s : trim_end (trim_end s) = trim_end s.
Proof.
  induction s as [|c s IH]; [done|]. simpl.
  destruct (trim_end s) as [|d t] eqn:Ht.
  - destruct (is_whitespace c) eqn:Hc; [done|]. simpl. by rewrite Hc.
  - cbn [trim_end]. cbn [trim_end] in IH. by rewrite IH.
Qed.

Lemma trim_idem s : trim (trim s) = trim s.
Proof.
  unfold trim.
  rewrite (trim_start_clean (trim_end _))
    by apply starts_clean_trim_end, starts_clean_trim_start.
  apply trim_end_idem.
Qed.

Lemma all_chars_trim_start p s :
  all_chars p s = true -> all_chars p (trim_start s) = true.
Proof.
  induction s as [|c s IH]; [done|]. simpl.
  destruct (is_whitespace c); [|done]. intros [_ H]%andb_prop. auto.
Qed.

Lemma all_chars_trim_end p s :
  all_chars p s = true -> all_chars p (trim_end s) = true.
Proof.
  induction s as [|c s IH]; [done|]. simpl. intros [Hc H]%andb_prop.
  specialize (IH H). destruct (trim_end s).
  - destruct (is_whitespace c); [done|]. simpl. by rewrite Hc.
  - simpl. simpl in IH. by rewrite Hc.
Qed.

Lemma all_chars_trim p s : all_chars p s = true -> all_chars p (trim s) = true.
Proof. intros H. by apply all_chars_trim_end, all_chars_trim_start. Qed.

(** No piece of a split holds a separator. *)
Lemma split_on_pieces p s :
  Forall (fun piece => all_chars (fun c => negb (p c)) piece = true)
    (split_on p s).
Proof.
  induction s as [|c s IH]; [by repeat constructor|]. simpl.
  destruct (p c) eqn:Hc; [by constructor|].
  destruct (split_on p s) as [|piece pieces].
  - repeat constructor. simpl. by rewrite Hc.
  - inversion IH; subst. constructor; [|done]. simpl. by rewrite Hc.
Qed.

Lemma keep_chars_all p s : all_chars p (keep_chars p s) = true.
Proof.
  induction s as [|c s IH]; [done|]. simpl.
  destruct (p c) eqn:Hc; [|done]. simpl. by rewrite Hc.
Qed.

End StringFacts.

(** ** The prompt builder *)

Section PromptFacts.

Lemma fold_left_push (xs acc : list string) : fold_left push xs acc = acc ++ xs.
Proof.
  revert acc. induction xs as [|x xs IH]; intros acc; simpl.
  - by rewrite app_nil_r.
  - rewrite IH. unfold push. by rewrite <- app_assoc.
Qed.

Lemma push_if (b : bool) (xs : list string) (x : string) :
  (if b then push xs x else xs) = xs ++ (if b then [x] else []).
Proof. destruct b; [done|by rewrite app_nil_r]. Qed.

Lemma enabled_phrases_cons (f : string * string -> bool) o os :
  List.map snd (List.filter f (o :: os))
  = (if f o then [snd o] else []) ++ List.map snd (List.filter f os).
Proof. simpl. by destruct (f o). Qed.

(** The conditional pushes of the builder produce the list the
    specification describes. *)
Lemma build_categories_spec q pt e :
  build_categories q pt e = spec_categories q pt e.
Proof.
  unfold build_categories, spec_categories, content_options.
  rewrite !enabled_phrases_cons. cbn [List.map List.filter fst snd].
  rewrite !push_if, fold_left_push.
  assert (Hpt : match pt with
                | Some pt' =>
                    if nonempty pt'
                    then push [] ("product type (this is a " +:+ pt' +:+ " product)")
                    else []
                | None => []
                end
              = match pt with
                | Some pt' =>
                    if nonempty pt'
                    then ["product type (this is a " +:+ pt' +:+ " product)"]
                    else []
                | None => []
                end) by (by destruct pt as [pt'|]).
  rewrite Hpt.
  assert (Hq : forall acc : list string,
    (if (0 <? length q)%nat then acc ++ q else acc) = acc ++ q).
  { intros acc. destruct q; [by rewrite app_nil_r|done]. }
  rewrite Hq, <- !app_assoc. by rewrite app_nil_r.
Qed.

(** C3.  The categories the builder assembles are, for every input,
    the product-type category (when the product type is a non-empty
    string), then the questions as given and in their order, then the
    phrase of each enabled content option in the order productTitle,
    productDescription, colorVariant, seoDescription, productTags,
    altText; these categories joined by a comma and a space are what
    the prompt carries; and Scenario A yields its four categories in
    that order. *)
Theorem C3_category_order :
  (forall questions productType enabled,
     build_categories questions productType enabled
     = spec_categories questions productType enabled)
  /\ (forall questions productType enabled,
     buildComprehensivePrompt questions productType enabled
     = prompt_head
       +:+ join ", " (spec_categories questions productType enabled)
       +:+ prompt_tail)
  /\ build_categories ["what is the collar style"] (Some "t-shirt")
       ["productTitle"; "colorVariant"]
     = ["product type (this is a t-shirt product)";
        "what is the collar style";
        "product title (compelling, SEO-friendly product title)";
        "color variants (primary colors and color variants visible)"].
Proof.
  split; [apply build_categories_spec|]. split; [|reflexivity].
  intros q pt e. unfold buildComprehensivePrompt.
  by rewrite build_categories_spec.
Qed.

(** The returned text of the empty request neither starts with
    "Analyze the image provided" nor equals the one-line template. *)
Lemma C2_counterexample :
  starts_with (buildComprehensivePrompt [] None []) "Analyze the image provided"
  = false
  /\ buildComprehensivePrompt [] None []
     <> spec_template (join ", " (build_categories [] None [])).
Proof.
  split; [vm_compute; reflexivity|].
  intros H.
  apply (f_equal (fun s => starts_with s "Analyze the image provided")) in H.
  vm_compute in H. discriminate H.
Qed.

Lemma prompt_tail_normalized b :
  replace_ws_runs " " b prompt_tail = replace_ws_runs " " b spec_tail.
Proof. destruct b; vm_compute; reflexivity. Qed.

Lemma prompt_head_normalized :
  replace_ws_runs " " false prompt_head
  = " " +:+ replace_ws_runs " " false spec_head
  /\ run_after false prompt_head = run_after false spec_head.
Proof. split; vm_compute; reflexivity. Qed.

(** C2, amended.  For every input the returned string is the template
    laid out over three lines: a line break and nine spaces, then
    "Analyze the image provided and determine the categories of: ",
    the categories joined by ", ", a full stop and a space; then, each
    on a new line behind nine spaces, the sentence about classLabels
    (with its trailing space) and the sentence about null.  Past its
    leading whitespace the text starts with "Analyze the image
    provided", and with every run of whitespace replaced by one space
    it is the one-line template of the specification, treated alike,
    behind a single space. *)
Theorem C2_template_layout questions productType enabled :
  let categoriesString :=
    join ", " (build_categories questions productType enabled) in
  let prompt := buildComprehensivePrompt questions productType enabled in
  prompt
  = String LF "         Analyze the image provided and determine the categories of: "
    +:+ categoriesString +:+ ". "
    +:+ String LF "         Report the values of the categories as classLabels. Be very careful to place these values correctly. "
    +:+ String LF "         If you are unable to provide a category with a value then set its classLabel to null."
  /\ starts_with (trim_start prompt) "Analyze the image provided" = true
  /\ replace_ws_runs " " false prompt
     = " " +:+ replace_ws_runs " " false (spec_template categoriesString).
Proof.
  intros cats prompt. subst prompt. unfold buildComprehensivePrompt.
  fold cats. generalize cats. clear. intros cats.
  split; [vm_compute; reflexivity|]. split; [vm_compute; reflexivity|].
  unfold spec_template. rewrite !replace_ws_runs_app.
  destruct prompt_head_normalized as [-> ->].
  rewrite prompt_tail_normalized. by rewrite append_assoc.
Qed.

(** Scenario B: with ageRange and gender enabled, and nothing else,
    the person flag holds and the prompt does not contain the
    person-mode preamble.  And with no option enabled, a question that
    spells the preamble carries it into the prompt. *)
Lemma C1_counterexample :
  (hasPersonFlag ["ageRange"; "gender"] = true
   /\ includes (buildComprehensivePrompt [] None ["ageRange"; "gender"])
        person_preamble
      = false)
  /\ (hasPersonFlag [] = false
      /\ includes (buildComprehensivePrompt [person_preamble] None [])
           person_preamble
         = true).
Proof. repeat split; vm_compute; reflexivity. Qed.

Lemma array_includes_without_person e x :
  x ∉ person_options ->
  array_includes (filter (fun o => o ∉ person_options) e) x = array_includes e x.
Proof.
  intros Hx. unfold array_includes. apply bool_decide_ext.
  rewrite list_elem_of_filter. tauto.
Qed.

Lemma build_categories_without_person q pt e :
  build_categories q pt (filter (fun o => o ∉ person_options) e)
  = build_categories q pt e.
Proof.
  unfold build_categories.
  rewrite !array_includes_without_person; [done|..];
    by apply (bool_decide_unpack _).
Qed.

(** C1, amended.  The builder has one template and no person-analysis
    mode: removing the options ageRange, gender, fashionStyle and
    outfitDescription from the enabled ones never changes the text,
    so enabling them never does.  The template itself contributes no
    person-mode preamble: the preamble occurs in the text exactly when
    it occurs in the joined categories followed by the full stop of
    the template, that is, only when the product type or the
    questions of the caller spell it out; with no questions and no
    product type it never occurs, whichever options are enabled. *)
Theorem C1_single_template questions productType enabled :
  buildComprehensivePrompt questions productType
    (filter (fun o => o ∉ person_options) enabled)
  = buildComprehensivePrompt questions productType enabled
  /\ includes (buildComprehensivePrompt questions productType enabled)
       person_preamble
     = includes
         (join ", " (build_categories questions productType enabled) +:+ ".")
         person_preamble
  /\ includes (buildComprehensivePrompt [] None enabled) person_preamble = false.
Proof.
  assert (Hin : forall q pt e,
    includes (buildComprehensivePrompt q pt e) person_preamble
    = includes (join ", " (build_categories q pt e) +:+ ".") person_preamble).
  { intros q pt e. unfold buildComprehensivePrompt, person_preamble.
    rewrite (includes_skip _ _ prompt_head) by (vm_compute; reflexivity).
    apply includes_padded; vm_compute; reflexivity. }
  split; [|split].
  - unfold buildComprehensivePrompt. by rewrite build_categories_without_person.
  - apply Hin.
  - rewrite Hin, build_categories_spec.
    unfold spec_categories, content_options. cbn [List.map List.filter fst snd].
    repeat match goal with |- context [array_includes enabled ?x] =>
      destruct (array_includes enabled x) end; vm_compute; reflexivity.
Qed.

End PromptFacts.

(** ** The response extractor *)

Section ExtractorFacts.

(** *** The function in closed form *)

Lemma parse_nil :
  parseVisualIntelligenceResponse [] = Returns (initial_response []).
Proof. reflexivity. Qed.

(** The preview gets through results of the shape of [Result], and
    reports the length of the text and the number of classes of each
    of them. *)
Lemma preview_from_shaped i results :
  exists entries,
    preview_from i (shaped results) = Returns entries
    /\ List.map textLength entries
       = List.map (fun r => String.length (default "" (text r))) results
    /\ List.map classesCount entries
       = List.map (fun r => length (default [] (classes r))) results.
Proof.
  revert i. induction results as [|r results IH]; intros i.
  - exists []. by repeat split.
  - destruct (IH (S i)) as (entries & Hentries & Hlen & Hcount).
    change (shaped (r :: results)) with (Shaped r :: shaped results).
    cbn [preview_from]. rewrite Hentries.
    unfold preview_entry, Shaped. cbn [property mbind outcome_bind any_text any_classes].
    destruct (text r) as [t|] eqn:Ht; simpl;
      eexists; (split; [reflexivity|]); simpl; by rewrite Ht, Hlen, Hcount.
Qed.

Lemma structured_path_cons r results :
  structured_path (Shaped r) (initial_response results)
  = Returns {| rawResults := results;
               responseText := trim (combinedText (structured_state r));
               extractedData := data (structured_state r) |}.
Proof.
  unfold structured_path, structured_state, initial_state, Shaped.
  cbn [property mbind outcome_bind any_classes].
  destruct (classes r) as [[|item items]|]; try reflexivity.
  cbn -[trim fold_left process_class_item].
  by destruct (trim _).
Qed.

Lemma parse_cons r rest :
  parseVisualIntelligenceResponse (shaped (r :: rest))
  = Returns {| rawResults := shaped (r :: rest);
               responseText := final_text r;
               extractedData := final_data r |}.
Proof.
  unfold parseVisualIntelligenceResponse, entry_preview.
  destruct (preview_from_shaped 0 (r :: rest)) as (entries & -> & _).
  cbn [mbind outcome_bind].
  change (0 <? length (shaped (r :: rest)))%nat with true. cbv iota.
  change (mjoin (shaped (r :: rest) !! 0%nat)) with (Shaped r).
  rewrite structured_path_cons. cbn [mbind outcome_bind].
  unfold fallback_path, fallback_guard, final_text, final_data, enters_fallback.
  unfold Shaped.
  cbn [extractedData responseText rawResults property mbind outcome_bind any_text].
  destruct (keys_length _ =? 0)%nat; [|reflexivity].
  destruct (text r) as [[|c t]|]; reflexivity.
Qed.

Lemma structured_state_app r items item :
  classes r = Some (items ++ [item]) ->
  structured_state r
  = process_class_item (fold_left process_class_item items initial_state) item.
Proof.
  intros H. unfold structured_state. rewrite H. cbn [default from_option id].
  by rewrite fold_left_app.
Qed.

Lemma keys_length_set_own o k v : keys_length (set_own o k v) <> 0%nat.
Proof.
  unfold keys_length, set_own. cbn [own].
  intros H%map_size_empty_iff. by apply insert_non_empty in H.
Qed.

Lemma final_data_structured r :
  keys_length (data (structured_state r)) <> 0%nat ->
  final_data r = data (structured_state r).
Proof.
  intros H. unfold final_data, enters_fallback.
  destruct (Nat.eqb_spec (keys_length (data (structured_state r))) 0); done.
Qed.

(** *** createFieldMapping and the object *)

Lemma mappings_values_nonempty normalized mapped :
  (list_to_map mappings : gmap string string) !! normalized = Some mapped ->
  nonempty mapped = true.
Proof.
  intros H%elem_of_list_to_map_2.
  assert (Hall : Forall (fun p => nonempty p.2 = true) mappings).
  { unfold mappings. repeat constructor. }
  rewrite Forall_forall in Hall. apply (Hall _ H).
Qed.

(** The test [if (fieldKey)] never fails: an unmappable category is
    given a synthesized key. *)
Lemma createFieldMapping_truthy c : key_truthy (createFieldMapping c) = true.
Proof.
  unfold createFieldMapping, mappings_get.
  destruct (negb _); [done|].
  destruct (_ !! _) as [mapped|] eqn:Hm.
  - cbn [key_truthy]. rewrite (mappings_values_nonempty _ _ Hm).
    cbn [key_truthy]. by apply mappings_values_nonempty in Hm.
  - destruct (inherited _); cbn [fmap option_fmap option_map key_truthy].
    + done.
    + by destruct (sanitize _).
Qed.

Lemma own_assign_other o k v k' :
  k' <> k -> own (assign o k v) !! k' = own o !! k'.
Proof.
  intros Hne. unfold assign.
  destruct (_ && _); [by destruct v|].
  cbn [set_own own]. by rewrite lookup_insert_ne.
Qed.

Lemma own_assign_same o k v :
  k <> "__proto__" \/ has_prototype o = false ->
  own (assign o k v) !! k = Some (from_option VStr VNull v).
Proof.
  intros H. unfold assign.
  destruct (bool_decide (k = "__proto__")) eqn:Hk, (has_prototype o) eqn:Hp;
    cbn [andb set_own own]; try by rewrite lookup_insert_eq.
  apply bool_decide_eq_true in Hk. by destruct H.
Qed.

(** A category that names a member of [Object.prototype] is answered
    by that member, and a category that is sanitized to [__proto__]
    gets this very key. *)
Example prototype_member_keys :
  createFieldMapping "Constructor"
  = PrototypeMember "function Object() { [native code] }"
  /\ createFieldMapping "__proto__" = PrototypeMember "[object Object]"
  /\ createFieldMapping "__proto__!" = FieldName "__proto__"
  /\ createFieldMapping "Chest  Size" = FieldName "chest_size"
  /\ createFieldMapping "Sleeve length (cm)" = FieldName "sleeve_length_cm".
Proof. repeat split; vm_compute; reflexivity. Qed.

(** *** One item of the structured path *)

(** Enter the body of the loop for an item whose category is [cat]
    and whose label is known. *)
Ltac enter_item Hcategory Hnonempty Hlabel :=
  unfold process_class_item;
  rewrite Hcategory, Hlabel;
  cbn [truthy_string default from_option id];
  rewrite Hnonempty, createFieldMapping_truthy.

Lemma process_class_item_skip st item :
  truthy_string (category item) = false -> process_class_item st item = st.
Proof. unfold process_class_item. by intros ->. Qed.

(** A category of blanks only is not skipped: it passes the test of
    line 293 and is filed under [unknown_field]. *)
Example blank_category_is_unknown_field :
  own (data (process_class_item initial_state
               {| category := Some " "; classLabel := Some "navy" |}))
  !! "unknown_field" = Some (VStr "navy").
Proof. vm_compute; reflexivity. Qed.

(** Away from the key [__proto__], the label "null" is stored as
    [null] under the key of the item. *)
Lemma null_label_stored st item cat :
  category item = Some cat -> nonempty cat = true ->
  classLabel item = Some "null" ->
  property_key (createFieldMapping cat) <> "__proto__" ->
  own (data (process_class_item st item)) !! property_key (createFieldMapping cat)
  = Some VNull.
Proof.
  intros Hc Hn Hl Hk. enter_item Hc Hn Hl.
  rewrite bool_decide_eq_true_2 by done. cbn [data].
  rewrite own_assign_same by auto. done.
Qed.

(** C4, at the input where the code departs from it.  The category
    "__proto__!" is not in the synonym table and is sanitized to the
    key [__proto__]; storing [null] under that key reaches the
    prototype setter of the object, so the reply with this one item
    and the label "null" leaves [extractedData] without any property:
    no [null] is stored under the key of the item. *)
Theorem C4_proto_key_drops_null :
  let item := {| category := Some "__proto__!"; classLabel := Some "null" |} in
  let reply := [{| classes := Some [item]; text := None |}] in
  createFieldMapping "__proto__!" = FieldName "__proto__"
  /\ parseVisualIntelligenceResponse (shaped reply)
     = Returns {| rawResults := shaped reply;
                  responseText := "__proto__!: null";
                  extractedData := {| own := ∅; has_prototype := false |} |}.
Proof. split; vm_compute; reflexivity. Qed.

Lemma split_tags_clean value :
  Forall (fun tag => nonempty tag = true /\ trim tag = tag /\
            all_chars (fun c => negb (is_tag_separator c)) tag = true)
    (split_tags value).
Proof.
  unfold split_tags. apply Forall_forall. intros tag Hin.
  apply list_elem_of_In, filter_In in Hin as [Hin Hne].
  apply in_map_iff in Hin as (piece & <- & Hin).
  split; [done|]. split; [apply trim_idem|].
  apply all_chars_trim.
  pose proof (split_on_pieces is_tag_separator value) as H.
  rewrite Forall_forall in H. by apply H, list_elem_of_In.
Qed.

(** *** What trimming does *)

Lemma trim_start_split s :
  exists l, s = l +:+ trim_start s /\ all_chars is_whitespace l = true.
Proof.
  induction s as [|c s (l & Hs & Hl)]; [by exists ""|]. simpl.
  destruct (is_whitespace c) eqn:Hc; [|by exists ""].
  exists (String c l). rewrite append_cons, <- Hs. simpl. by rewrite Hc.
Qed.

Lemma trim_end_split s :
  exists r, s = trim_end s +:+ r /\ all_chars is_whitespace r = true.
Proof.
  induction s as [|c s (r & Hs & Hr)]; [by exists ""|]. simpl.
  destruct (trim_end s) as [|d t].
  - change ("" +:+ r) with r in Hs. subst r.
    destruct (is_whitespace c) eqn:Hc.
    + exists (String c s). split; [done|]. simpl. by rewrite Hc.
    + exists s. by split.
  - exists r. rewrite append_cons. by rewrite <- Hs.
Qed.

Lemma ends_clean_trim_end s : ends_clean (trim_end s) = true.
Proof.
  unfold ends_clean. induction s as [|c s IH]; [done|]. simpl.
  destruct (trim_end s) as [|d t].
  - destruct (is_whitespace c) eqn:Hc; [done|]. simpl. by rewrite Hc.
  - exact IH.
Qed.

Lemma nonempty_trim_start s :
  nonempty (trim_start s) = negb (all_chars is_whitespace s).
Proof.
  induction s as [|c s IH]; [done|]. simpl. by destruct (is_whitespace c).
Qed.

Lemma nonempty_trim_end s :
  starts_clean s = true -> nonempty (trim_end s) = nonempty s.
Proof.
  destruct s as [|c s]; [done|]. simpl. intros Hc%negb_true_iff.
  destruct (trim_end s); [by rewrite Hc|done].
Qed.

Lemma nonempty_trim s : nonempty (trim s) = negb (all_chars is_whitespace s).
Proof.
  unfold trim. rewrite nonempty_trim_end by apply starts_clean_trim_start.
  apply nonempty_trim_start.
Qed.

(** A string is its trim between two runs of whitespace, and the trim
    neither starts nor ends with whitespace. *)
Lemma trim_core s :
  exists l r,
    s = l +:+ trim s +:+ r
    /\ all_chars is_whitespace l = true /\ all_chars is_whitespace r = true
    /\ starts_clean (trim s) = true /\ ends_clean (trim s) = true.
Proof.
  destruct (trim_start_split s) as (l & Hs & Hl).
  destruct (trim_end_split (trim_start s)) as (r & Ht & Hr).
  exists l, r. unfold trim. rewrite <- Ht, <- Hs.
  split; [done|]. split; [done|]. split; [done|]. split.
  - apply starts_clean_trim_end, starts_clean_trim_start.
  - apply ends_clean_trim_end.
Qed.

Lemma split_tags_cores value :
  Forall2
    (fun piece tag =>
       exists l r,
         piece = l +:+ tag +:+ r
         /\ all_chars is_whitespace l = true /\ all_chars is_whitespace r = true
         /\ starts_clean tag = true /\ ends_clean tag = true)
    (List.filter (fun piece => negb (all_chars is_whitespace piece))
       (split_on is_tag_separator value))
    (split_tags value).
Proof.
  unfold split_tags. induction (split_on is_tag_separator value) as [|piece pieces IH];
    [constructor|].
  cbn [List.map List.filter]. rewrite nonempty_trim.
  destruct (negb _); [|exact IH].
  constructor; [apply trim_core|exact IH].
Qed.

(** C6.  An item with a non-empty category that resolves to the field
    key product_tags and whose label is a string other than "null"
    makes the extractor store, under product_tags, the array of the
    pieces of the label between the separators [,] and [;], each
    trimmed, the empty ones dropped: every stored tag is non-empty,
    is its own trim and holds no separator.  Trimming is pinned
    without [trim]: the stored tags are, in order, the pieces that
    are not all whitespace, each without the whitespace before and
    after it, so that a tag neither starts nor ends with whitespace
    and its piece is the tag between two runs of whitespace.  This is
    what the loop body stores, and what the whole extraction returns
    when the item is the last of the classes of the first result. *)
Theorem C6_tags_split st item cat value :
  category item = Some cat -> nonempty cat = true ->
  key_is (createFieldMapping cat) "product_tags" = true ->
  classLabel item = Some value -> value <> "null" ->
  own (data (process_class_item st item)) !! "product_tags"
  = Some (VArr (split_tags value))
  /\ Forall (fun tag => nonempty tag = true /\ trim tag = tag /\
               all_chars (fun c => negb (is_tag_separator c)) tag = true)
       (split_tags value)
  /\ Forall2
       (fun piece tag =>
          exists l r,
            piece = l +:+ tag +:+ r
            /\ all_chars is_whitespace l = true
            /\ all_chars is_whitespace r = true
            /\ starts_clean tag = true /\ ends_clean tag = true)
       (List.filter (fun piece => negb (all_chars is_whitespace piece))
          (split_on is_tag_separator value))
       (split_tags value)
  /\ forall items t rest, exists p,
       parseVisualIntelligenceResponse
         (shaped ({| classes := Some (items ++ [item]); text := t |} :: rest))
       = Returns p
       /\ own (extractedData p) !! "product_tags"
          = Some (VArr (split_tags value)).
Proof.
  intros Hc Hn Hk Hl Hv.
  assert (Hstep : forall st', process_class_item st' item
    = {| data := set_own (data st') "product_tags" (VArr (split_tags value));
         combinedText :=
           combinedText st' +:+ cat +:+ ": " +:+ value +:+ String LF "" |}).
  { intros st'. enter_item Hc Hn Hl.
    rewrite bool_decide_eq_false_2 by congruence. by rewrite Hk. }
  split; [|split; [|split]].
  - rewrite Hstep. cbn [data set_own own]. apply lookup_insert_eq.
  - apply split_tags_clean.
  - apply split_tags_cores.
  - intros items t rest. rewrite parse_cons. eexists. split; [reflexivity|].
    cbn [extractedData].
    rewrite final_data_structured;
      rewrite (structured_state_app _ items item) by done;
      rewrite Hstep; cbn [data].
    + cbn [set_own own]. apply lookup_insert_eq.
    + apply keys_length_set_own.
Qed.

(** Scenario C, the tags of "red, blue;green", and tags with
    whitespace on both sides of the separators. *)
Lemma C6_witness :
  let item := {| category := Some "Product Tags";
                 classLabel := Some "red, blue, green" |} in
  split_tags "red, blue, green" = ["red"; "blue"; "green"]
  /\ split_tags "red, blue;green" = ["red"; "blue"; "green"]
  /\ split_tags " red , blue ;; green  " = ["red"; "blue"; "green"]
  /\ exists p,
       parseVisualIntelligenceResponse
         (shaped [{| classes := Some [item]; text := None |}]) = Returns p
       /\ own (extractedData p) !! "product_tags"
          = Some (VArr ["red"; "blue"; "green"]).
Proof.
  intros item. split; [reflexivity|]. split; [reflexivity|].
  split; [reflexivity|].
  refine (proj2 (proj2 (proj2
    (C6_tags_split initial_state item "Product Tags" "red, blue, green"
       _ _ _ _ _))) [] None []).
  - reflexivity.
  - reflexivity.
  - vm_compute; reflexivity.
  - reflexivity.
  - discriminate.
Defined.

(** C7.  An item with a non-empty category that resolves to the field
    key price and whose label is a string other than "null" has the
    label stripped down to digits, [.] and [-] and read by
    [parseFloat]: when that yields a number, the number is stored
    under price; when it yields NaN, the label as received is stored
    under price_text.  Either way the loop body returns, and the whole
    extraction returns the same entry when the item is the last of the
    classes of the first result.  Numbers are compared by the exact
    value of the decimal literal read. *)
Theorem C7_price_parsed st item cat value :
  category item = Some cat -> nonempty cat = true ->
  key_is (createFieldMapping cat) "price" = true ->
  classLabel item = Some value -> value <> "null" ->
  all_chars is_price_char (price_string value) = true
  /\ match parseFloat (price_string value) with
     | Some number =>
         own (data (process_class_item st item)) !! "price"
         = Some (VNum number)
     | None =>
         own (data (process_class_item st item)) !! "price_text"
         = Some (VStr value)
     end
  /\ forall items t rest, exists p,
       parseVisualIntelligenceResponse
         (shaped ({| classes := Some (items ++ [item]); text := t |} :: rest))
       = Returns p
       /\ match parseFloat (price_string value) with
          | Some number => own (extractedData p) !! "price" = Some (VNum number)
          | None => own (extractedData p) !! "price_text" = Some (VStr value)
          end.
Proof.
  intros Hc Hn Hk Hl Hv.
  assert (Hstep : forall st', data (process_class_item st' item)
    = match parseFloat (price_string value) with
      | Some number => set_own (data st') "price" (VNum number)
      | None => set_own (data st') "price_text" (VStr value)
      end).
  { intros st'. enter_item Hc Hn Hl.
    rewrite bool_decide_eq_false_2 by congruence.
    destruct (createFieldMapping cat) as [name|]; [|done].
    cbn [key_is] in Hk |- *. apply bool_decide_eq_true in Hk as ->.
    rewrite bool_decide_eq_false_2 by discriminate.
    rewrite bool_decide_eq_true_2 by done. cbn [data].
    by destruct (parseFloat _). }
  split; [apply keep_chars_all|]. split.
  - rewrite Hstep.
    destruct (parseFloat _); cbn [set_own own]; apply lookup_insert_eq.
  - intros items t rest. rewrite parse_cons. eexists. split; [reflexivity|].
    cbn [extractedData].
    rewrite final_data_structured;
      rewrite (structured_state_app _ items item) by done; rewrite Hstep.
    + destruct (parseFloat _); cbn [set_own own]; apply lookup_insert_eq.
    + destruct (parseFloat _); apply keys_length_set_own.
Qed.

(** Scenario D, and a price that is not a number. *)
Lemma C7_witness :
  let priced label := {| category := Some "Price"; classLabel := Some label |} in
  (exists p,
     parseVisualIntelligenceResponse
       (shaped [{| classes := Some [priced "$19.99"]; text := None |}]) = Returns p
     /\ own (extractedData p) !! "price" = Some (VNum (1999 # 100)))
  /\ (exists p,
     parseVisualIntelligenceResponse
       (shaped [{| classes := Some [priced "call us"]; text := None |}]) = Returns p
     /\ own (extractedData p) !! "price_text" = Some (VStr "call us")).
Proof.
  intros priced. split.
  - refine (proj2 (proj2
      (C7_price_parsed initial_state (priced "$19.99") "Price" "$19.99"
         _ _ _ _ _)) [] None []);
      [reflexivity | reflexivity | vm_compute; reflexivity
      | reflexivity | discriminate].
  - refine (proj2 (proj2
      (C7_price_parsed initial_state (priced "call us") "Price" "call us"
         _ _ _ _ _)) [] None []);
      [reflexivity | reflexivity | vm_compute; reflexivity
      | reflexivity | discriminate].
Defined.

(** *** The fallback path *)

(** A line never changes a field whose value is truthy. *)
Lemma process_line_keeps o line k v :
  own o !! k = Some v -> truthy v = true ->
  own (process_line o line) !! k = Some v.
Proof.
  intros Hk Hv. unfold process_line.
  destruct (match_key_value line) as [[group1 group2]|]; [|done].
  destruct (_ && _) eqn:Hcond; [|done].
  apply andb_prop in Hcond as [_ Hread%negb_true_iff].
  destruct (decide (k = property_key (createFieldMapping (trim group1))))
    as [->|Hne].
  - unfold read_truthy in Hread. rewrite Hk in Hread. congruence.
  - by rewrite own_assign_other.
Qed.

Lemma fallback_keeps lines o k v :
  own o !! k = Some v -> truthy v = true ->
  own (fold_left process_line lines o) !! k = Some v.
Proof.
  revert o. induction lines as [|line lines IH]; intros o Hk Hv; [done|].
  simpl. apply IH; [|done]. by apply process_line_keeps.
Qed.

(** Scenario E: with no classes, the lines of the text are read. *)
Example fallback_reads_text :
  exists p,
    parseVisualIntelligenceResponse
      (shaped
         [{| classes := Some [];
             text := Some ("Product Title: Blue Jacket" +:+ String LF "Color: Navy") |}])
    = Returns p
    /\ own (extractedData p) !! "product_title" = Some (VStr "Blue Jacket")
    /\ own (extractedData p) !! "color_variant" = Some (VStr "Navy").
Proof. eexists. split; [apply parse_cons|]. split; vm_compute; reflexivity. Qed.

(** What line 369 tests is the truthiness of the stored value: a field
    that holds the empty string is not populated.  The line "title: "
    matches with a blank value, which the fallback path itself stores
    as the empty string under product_title; the next line with the
    same key fills it. *)
Example blank_value_is_filled :
  let first := process_line empty_object "title: " in
  own first !! "product_title" = Some (VStr "")
  /\ own (process_line first "title: Blue Jacket") !! "product_title"
     = Some (VStr "Blue Jacket")
  /\ exists p,
       parseVisualIntelligenceResponse
         (shaped
            [{| classes := None;
                text := Some ("title: " +:+ String LF "title: Blue Jacket") |}])
       = Returns p
       /\ own (extractedData p) !! "product_title" = Some (VStr "Blue Jacket").
Proof.
  split; [vm_compute; reflexivity|]. split; [vm_compute; reflexivity|].
  eexists. split; [apply parse_cons|]. vm_compute; reflexivity.
Qed.

(** C5.  Let [s] be the response after the structured path.  When it
    holds at least one extracted field, or the first result has no
    non-empty text, the extraction returns [s] as it is: the fallback
    path is entered only with zero fields and a text block.  In
    particular a product_title set by the structured path makes the
    extraction return [s], so the fallback path never replaces it.
    Within the fallback path a field that is populated, which line 369
    tests as holding a truthy value, is never changed by a line,
    whatever the lines are. *)
Theorem C5_fallback_guarded r rest s :
  structured_path (Shaped r) (initial_response (shaped (r :: rest))) = Returns s ->
  ((keys_length (extractedData s) <> 0%nat \/ truthy_string (text r) = false) ->
     parseVisualIntelligenceResponse (shaped (r :: rest)) = Returns s)
  /\ (forall v, own (extractedData s) !! "product_title" = Some v ->
        parseVisualIntelligenceResponse (shaped (r :: rest)) = Returns s)
  /\ (forall lines o k v, own o !! k = Some v -> truthy v = true ->
        own (fold_left process_line lines o) !! k = Some v).
Proof.
  rewrite structured_path_cons. intros [= <-]. cbn [extractedData].
  assert (Hskip :
    keys_length (data (structured_state r)) <> 0%nat \/
    truthy_string (text r) = false ->
    parseVisualIntelligenceResponse (shaped (r :: rest))
    = Returns {| rawResults := shaped (r :: rest);
                 responseText := trim (combinedText (structured_state r));
                 extractedData := data (structured_state r) |}).
  { intros H. rewrite parse_cons. unfold final_text, final_data, enters_fallback.
    destruct H as [H | ->].
    - by destruct (Nat.eqb_spec (keys_length (data (structured_state r))) 0).
    - by rewrite andb_false_r. }
  split; [exact Hskip|]. split.
  - intros v Hv. apply Hskip. left. unfold keys_length.
    intros Hsize%map_size_empty_iff. by rewrite Hsize, lookup_empty in Hv.
  - apply fallback_keeps.
Qed.

(** A title from the structured path survives a text that names
    another title. *)
Lemma C5_witness :
  let r := {| classes := Some [{| category := Some "Title";
                                  classLabel := Some "Blue Jacket" |}];
              text := Some "title: Red Coat" |} in
  exists p,
    parseVisualIntelligenceResponse (shaped [r]) = Returns p
    /\ own (extractedData p) !! "product_title" = Some (VStr "Blue Jacket")
    /\ responseText p = "Title: Blue Jacket".
Proof.
  intros r.
  pose (s := {| rawResults := shaped [r];
                responseText := "Title: Blue Jacket";
                extractedData :=
                  set_own empty_object "product_title" (VStr "Blue Jacket") |}).
  assert (Hs : structured_path (Shaped r) (initial_response (shaped [r])) = Returns s)
    by (vm_compute; reflexivity).
  exists s. split; [|split].
  - apply (proj1 (proj2 (C5_fallback_guarded r [] s Hs)) (VStr "Blue Jacket")).
    vm_compute; reflexivity.
  - vm_compute; reflexivity.
  - reflexivity.
Defined.

(** *** The extraction as a whole *)

(** Without the guard on the length of the list, the structured path
    would read [classes] of [undefined] and throw. *)
Example unguarded_read_throws :
  structured_path (mjoin ([] !! 0%nat)) (initial_response [])
  = Throws "TypeError: Cannot read properties of undefined".
Proof. reflexivity. Qed.

(** C8.  The extraction returns for every list of results of the
    shape of [Result] and never throws.  For the empty list, and for a first result whose classes
    are missing or empty and whose text is missing or empty, what it
    returns is the response it started from: no extracted field and
    the empty text. *)
Theorem C8_extraction_total :
  (forall results,
     exists p, parseVisualIntelligenceResponse (shaped results) = Returns p)
  /\ parseVisualIntelligenceResponse [] = Returns (initial_response [])
  /\ forall r rest,
       classes r = None \/ classes r = Some [] ->
       text r = None \/ text r = Some "" ->
       parseVisualIntelligenceResponse (shaped (r :: rest))
       = Returns (initial_response (shaped (r :: rest))).
Proof.
  split; [|split].
  - intros [|r rest]; eexists; [apply parse_nil | apply parse_cons].
  - apply parse_nil.
  - intros r rest Hc Ht. rewrite parse_cons.
    unfold final_text, final_data, enters_fallback, structured_state.
    destruct Hc as [-> | ->], Ht as [-> | ->]; reflexivity.
Qed.

Lemma C8_witness :
  parseVisualIntelligenceResponse (shaped [{| classes := Some []; text := None |}])
  = Returns {| rawResults := shaped [{| classes := Some []; text := None |}];
               responseText := "";
               extractedData := empty_object |}.
Proof.
  apply (proj2 (proj2 C8_extraction_total)
           {| classes := Some []; text := None |} []).
  - right. reflexivity.
  - left. reflexivity.
Defined.

(** C9.  An item whose category is missing or the empty string leaves
    the loop state as it was: no field and no line of combined text.
    The items around it are processed as if it were not there:
    dropping it from the classes of the first result changes neither
    the extracted fields nor the text returned. *)
Theorem C9_item_without_category_skipped item :
  category item = None \/ category item = Some "" ->
  (forall st, process_class_item st item = st)
  /\ forall before after t rest, exists p q,
       parseVisualIntelligenceResponse
         (shaped
            ({| classes := Some (before ++ item :: after); text := t |} :: rest))
       = Returns p
       /\ parseVisualIntelligenceResponse
            (shaped ({| classes := Some (before ++ after); text := t |} :: rest))
          = Returns q
       /\ extractedData p = extractedData q
       /\ responseText p = responseText q.
Proof.
  intros Hc.
  assert (Hskip : forall st, process_class_item st item = st).
  { intros st. apply process_class_item_skip. by destruct Hc as [-> | ->]. }
  split; [exact Hskip|].
  intros before after t rest. do 2 eexists.
  split; [apply parse_cons|]. split; [apply parse_cons|].
  cbn [extractedData responseText].
  assert (Hst :
    structured_state {| classes := Some (before ++ item :: after); text := t |}
    = structured_state {| classes := Some (before ++ after); text := t |}).
  { unfold structured_state. cbn [classes default from_option id].
    rewrite !fold_left_app. cbn [fold_left]. by rewrite Hskip. }
  unfold final_data, final_text, enters_fallback. rewrite Hst. done.
Qed.

Lemma C9_witness :
  let missing := {| category := None; classLabel := Some "orphan" |} in
  let title := {| category := Some "Title"; classLabel := Some "Blue Jacket" |} in
  exists p q,
    parseVisualIntelligenceResponse
      (shaped [{| classes := Some ([] ++ missing :: [title]); text := None |}])
    = Returns p
    /\ parseVisualIntelligenceResponse
         (shaped [{| classes := Some ([] ++ [title]); text := None |}]) = Returns q
    /\ extractedData p = extractedData q
    /\ responseText p = responseText q.
Proof.
  intros missing title.
  apply (proj2 (C9_item_without_category_skipped missing (or_introl eq_refl))
           [] [title] None []).
Defined.

(** *** The results after the first *)

Lemma readable_shaped e : readable e = true -> exists r, e = Shaped r.
Proof.
  destruct e as [[c [[t|other]|]]|]; try done; intros _.
  - by exists {| classes := c; text := Some t |}.
  - by exists {| classes := c; text := None |}.
Qed.

Lemma readable_all_shaped elements :
  forallb readable elements = true -> exists results, elements = shaped results.
Proof.
  induction elements as [|e elements IH]; [by exists []|].
  cbn [forallb]. intros [He Hrest]%andb_prop.
  destruct (readable_shaped e He) as [r ->].
  destruct (IH Hrest) as [results ->]. by exists (r :: results).
Qed.

Lemma preview_entry_unreadable i e :
  readable e = false -> exists message, preview_entry i e = Throws message.
Proof.
  destruct e as [[c [[t|other]|]]|]; try done; intros _; by eexists.
Qed.

Lemma preview_from_unreadable i elements :
  forallb readable elements = false ->
  exists message, preview_from i elements = Throws message.
Proof.
  revert i. induction elements as [|e elements IH]; intros i; [done|].
  cbn [forallb preview_from]. destruct (readable e) eqn:He.
  - destruct (readable_shaped e He) as [r ->]. cbn [andb]. intros Hrest.
    destruct (IH (S i) Hrest) as [message Hm]. rewrite Hm.
    destruct (preview_from_shaped i [r]) as (entries & Hr & _).
    change (shaped [r]) with [Shaped r] in Hr. cbn [preview_from] in Hr.
    destruct (preview_entry i (Shaped r)) as [entry|]; [|done].
    by exists message.
  - intros _. destruct (preview_entry_unreadable i e He) as [message ->].
    by exists message.
Qed.

(** The extraction of a list of one result of the shape of [Result]
    returns; a later element that is [null], or whose text is not a
    string, makes the extraction of the longer list throw; and the
    preview reports the text and the classes of a later result. *)
Lemma C10_counterexample :
  let first :=
    {| classes := Some [{| category := Some "Title";
                           classLabel := Some "Blue Jacket" |}];
       text := None |} in
  let later := {| classes := Some []; text := Some "hello" |} in
  (exists p,
     parseVisualIntelligenceResponse (shaped [first]) = Returns p
     /\ own (extractedData p) !! "product_title" = Some (VStr "Blue Jacket"))
  /\ (exists message,
       parseVisualIntelligenceResponse (shaped [first] ++ [None])
       = Throws message)
  /\ parseVisualIntelligenceResponse
       (shaped [first]
        ++ [Some {| any_classes := None; any_text := Some (TextOther true) |}])
     = Throws "TypeError: r.text?.substring is not a function"
  /\ preview_entry 1 (Shaped later)
     = Returns {| index := 1; hasText := true; textLength := 5;
                  textPreview := "hello..."; hasClasses := true;
                  classesCount := 0 |}.
Proof.
  intros first later. split; [|split; [|split]].
  - eexists. split; [apply parse_cons|]. vm_compute. reflexivity.
  - eexists. vm_compute. reflexivity.
  - vm_compute. reflexivity.
  - vm_compute. reflexivity.
Qed.

(** C10, amended.  The preview logged on entry reads the text and the
    classes of every element of the list, and only then is the first
    one processed.  When every later element is an object whose text
    is a string or nullish, the extraction of the list does what the
    extraction of the first element alone does: both throw with the
    same message, or both return, with the same extracted fields and
    the same text.  When some element is [null] or [undefined], or
    carries a text that is neither a string nor nullish, the
    extraction throws, whatever the first element is.  For results of
    the shape of [Result] both lists return and agree, and the preview
    holds the length of the text and the number of classes of every
    result. *)
Theorem C10_first_result_decides first rest :
  (forallb readable rest = true ->
     match parseVisualIntelligenceResponse (first :: rest),
           parseVisualIntelligenceResponse [first] with
     | Returns p, Returns q =>
         extractedData p = extractedData q /\ responseText p = responseText q
     | Throws message, Throws message' => message = message'
     | _, _ => False
     end)
  /\ (forallb readable (first :: rest) = false ->
        exists message,
          parseVisualIntelligenceResponse (first :: rest) = Throws message)
  /\ (forall r results, exists p q,
        parseVisualIntelligenceResponse (shaped (r :: results)) = Returns p
        /\ parseVisualIntelligenceResponse (shaped [r]) = Returns q
        /\ extractedData p = extractedData q
        /\ responseText p = responseText q)
  /\ (forall results, exists entries,
        entry_preview (shaped results) = Returns entries
        /\ List.map textLength entries
           = List.map (fun r => String.length (default "" (text r))) results
        /\ List.map classesCount entries
           = List.map (fun r => length (default [] (classes r))) results).
Proof.
  split; [|split; [|split]].
  - intros Hrest. destruct (readable first) eqn:Hfirst.
    + destruct (readable_shaped first Hfirst) as [r ->].
      destruct (readable_all_shaped rest Hrest) as [results ->].
      change (Shaped r :: shaped results) with (shaped (r :: results)).
      change [Shaped r] with (shaped [r]).
      by rewrite !parse_cons.
    + destruct (preview_entry_unreadable 0 first Hfirst) as [message Hm].
      unfold parseVisualIntelligenceResponse, entry_preview.
      cbn [preview_from]. by rewrite Hm.
  - intros Hsome.
    destruct (preview_from_unreadable 0 (first :: rest) Hsome) as [message Hm].
    exists message. unfold parseVisualIntelligenceResponse, entry_preview.
    by rewrite Hm.
  - intros r results. do 2 eexists.
    split; [apply parse_cons|]. split; [apply parse_cons|]. done.
  - intros results. apply preview_from_shaped.
Qed.

End ExtractorFacts.

(** * Further facts *)

(** ** More on strings *)

Section MoreStringFacts.

Lemma starts_with_refl_app n b : starts_with (n +:+ b) n = true.
Proof.
  induction n as [|c n IH]; [by destruct b|].
  rewrite append_cons. simpl. by rewrite Ascii.eqb_refl.
Qed.

Lemma starts_with_split s n : starts_with s n = true -> exists b, s = n +:+ b.
Proof.
  revert s. induction n as [|c n IH]; intros s H; [by exists s|].
  destruct s as [|d s]; [done|]. simpl in H.
  destruct (Ascii.eqb_spec c d) as [->|]; [|done].
  destruct (IH _ H) as [b ->]. by exists b.
Qed.

Lemma includes_split s n :
  includes s n = true -> exists a b, s = a +:+ n +:+ b.
Proof.
  induction s as [|c s IH].
  - destruct n; [by exists "", ""|done].
  - cbn [includes]. intros [H|H]%orb_prop.
    + apply starts_with_split in H as [b ->]. by exists "", b.
    + destruct (IH H) as (a & b & ->). by exists (String c a), b.
Qed.

Lemma starts_with_app_l a b n :
  starts_with a n = true -> starts_with (a +:+ b) n = true.
Proof.
  revert a. induction n as [|c n IH]; intros a.
  { intros _. by destruct (a +:+ b). }
  destruct a as [|d a]; [done|]. rewrite append_cons. simpl.
  destruct (Ascii.eqb c d); [apply IH|done].
Qed.

Lemma includes_app_r a b n : includes b n = true -> includes (a +:+ b) n = true.
Proof.
  intros H. induction a as [|c a IH]; [done|].
  rewrite append_cons. cbn [includes]. rewrite IH. apply orb_true_r.
Qed.

Lemma includes_app_l a b n : includes a n = true -> includes (a +:+ b) n = true.
Proof.
  induction a as [|c a IH].
  - destruct n; [|done]. intros _. by destruct b.
  - rewrite append_cons. cbn [includes].
    intros [H|H]%orb_prop.
    + apply (starts_with_app_l _ b) in H. rewrite append_cons in H.
      by rewrite H.
    + rewrite (IH H). apply orb_true_r.
Qed.

Lemma includes_self_app n b : includes (n +:+ b) n = true.
Proof.
  pose proof (starts_with_refl_app n b) as H.
  destruct (n +:+ b); cbn [includes]; by rewrite H.
Qed.

Lemma append_empty_r n : n +:+ "" = n.
Proof. induction n as [|c n IH]; [reflexivity|]. rewrite append_cons. by f_equal. Qed.

Lemma includes_refl n : includes n n = true.
Proof. pose proof (includes_self_app n "") as H. by rewrite append_empty_r in H. Qed.

(** A joined list contains each of its elements. *)
Lemma includes_join sep xs x : x ∈ xs -> includes (join sep xs) x = true.
Proof.
  induction xs as [|y ys IH]; [by intros ?%elem_of_nil|].
  intros [->|Hin]%elem_of_cons.
  - destruct ys; [apply includes_refl | apply includes_self_app].
  - destruct ys as [|z zs]; [by apply elem_of_nil in Hin|].
    change (join sep (y :: z :: zs)) with (y +:+ sep +:+ join sep (z :: zs)).
    by apply includes_app_r, includes_app_r, IH.
Qed.

Lemma includes_trans s m n :
  includes s m = true -> includes m n = true -> includes s n = true.
Proof.
  intros (a & b & ->)%includes_split H.
  by apply includes_app_r, includes_app_l.
Qed.

End MoreStringFacts.

(** ** More on the prompt *)

Section MorePromptFacts.

(** X1.  Only the presence of the six content options counts. *)
Theorem prompt_reads_membership questions productType enabled enabled' :
  (forall o, o ∈ List.map fst content_options -> o ∈ enabled <-> o ∈ enabled') ->
  buildComprehensivePrompt questions productType enabled
  = buildComprehensivePrompt questions productType enabled'.
Proof.
  intros H.
  assert (Hinc : forall o, o ∈ List.map fst content_options ->
                   array_includes enabled o = array_includes enabled' o).
  { intros o Ho. unfold array_includes. apply bool_decide_ext. by apply H. }
  unfold buildComprehensivePrompt, build_categories.
  rewrite !Hinc; [done|..]; apply (bool_decide_unpack _); vm_compute; exact I.
Qed.

Lemma prompt_reads_membership_witness :
  buildComprehensivePrompt ["what is the collar style"] (Some "t-shirt")
    ["colorVariant"; "productTitle"; "productTitle"]
  = buildComprehensivePrompt ["what is the collar style"] (Some "t-shirt")
      ["gender"; "productTitle"; "colorVariant"].
Proof.
  apply prompt_reads_membership.
  intros o Ho. cbn in Ho.
  rewrite !elem_of_cons, elem_of_nil in Ho.
  rewrite !elem_of_cons, !elem_of_nil.
  intuition (subst; try discriminate; auto).
Defined.

(** X2.  Every question, and the product type, reach the service verbatim. *)
Theorem prompt_contains_inputs questions productType enabled :
  (forall question, question ∈ questions ->
     includes (buildComprehensivePrompt questions productType enabled) question = true)
  /\ (forall pt, productType = Some pt ->
     includes (buildComprehensivePrompt questions productType enabled) pt = true).
Proof.
  split.
  - intros x Hx. unfold buildComprehensivePrompt.
    apply includes_app_r, includes_app_l, includes_join.
    rewrite build_categories_spec. unfold spec_categories.
    rewrite !elem_of_app. auto.
  - intros pt ->. destruct (nonempty pt) eqn:Hpt.
    + unfold buildComprehensivePrompt.
      apply includes_app_r, includes_app_l.
      rewrite build_categories_spec. unfold spec_categories. rewrite Hpt.
      eapply includes_trans.
      * apply includes_join. apply elem_of_app. left.
        by apply list_elem_of_singleton.
      * apply includes_app_r, includes_self_app.
    + destruct pt; [|done].
      by destruct (buildComprehensivePrompt questions (Some "") enabled).
Qed.

End MorePromptFacts.

(** ** More on the field mapping *)

Section MoreMappingFacts.

Lemma lower_char_facts c :
  is_whitespace (lower_char c) = is_whitespace c
  /\ lower_char (lower_char c) = lower_char c
  /\ is_upper (lower_char c) = false.
Proof. destruct c as [[] [] [] [] [] [] [] []]; vm_compute; auto. Qed.

Lemma toLowerCase_idem s : toLowerCase (toLowerCase s) = toLowerCase s.
Proof.
  induction s as [|c s IH]; [done|]. simpl.
  by rewrite IH, (proj1 (proj2 (lower_char_facts c))).
Qed.

Lemma trim_start_toLowerCase s :
  trim_start (toLowerCase s) = toLowerCase (trim_start s).
Proof.
  induction s as [|c s IH]; [done|]. simpl.
  rewrite (proj1 (lower_char_facts c)). by destruct (is_whitespace c).
Qed.

Lemma trim_end_toLowerCase s :
  trim_end (toLowerCase s) = toLowerCase (trim_end s).
Proof.
  induction s as [|c s IH]; [done|]. simpl. rewrite IH.
  rewrite (proj1 (lower_char_facts c)).
  destruct (trim_end s); simpl; [by destruct (is_whitespace c)|done].
Qed.

Lemma trim_toLowerCase s : trim (toLowerCase s) = toLowerCase (trim s).
Proof. unfold trim. by rewrite trim_start_toLowerCase, trim_end_toLowerCase. Qed.

Lemma nonempty_toLowerCase s : nonempty (toLowerCase s) = nonempty s.
Proof. by destruct s. Qed.

Lemma nonempty_replace_clean r s :
  starts_clean s = true -> nonempty (replace_ws_runs r false s) = nonempty s.
Proof. destruct s as [|c s]; [done|]. simpl. by intros ->%negb_true_iff. Qed.

Lemma nonempty_normalized c :
  nonempty (replace_ws_runs " " false (trim (toLowerCase c))) = nonempty (trim c).
Proof.
  rewrite nonempty_replace_clean
    by apply starts_clean_trim_end, starts_clean_trim_start.
  by rewrite trim_toLowerCase, nonempty_toLowerCase.
Qed.

(** X3.  The category is matched without regard to letter case, to the
    whitespace around it and to the length of the runs of whitespace
    inside it. *)
Theorem mapping_ignores_case_and_spacing c c' :
  replace_ws_runs " " false (trim (toLowerCase c))
  = replace_ws_runs " " false (trim (toLowerCase c')) ->
  createFieldMapping c = createFieldMapping c'.
Proof.
  intros H. unfold createFieldMapping.
  rewrite <- !nonempty_normalized. by rewrite H.
Qed.

Lemma mapping_ignores_case_and_spacing_witness :
  createFieldMapping ("  PRODUCT" +:+ String "009" "  Title ")
  = createFieldMapping "product title".
Proof. apply mapping_ignores_case_and_spacing. vm_compute. reflexivity. Defined.

Lemma mapping_ignores_case_and_margins c :
  createFieldMapping (toLowerCase c) = createFieldMapping c
  /\ createFieldMapping (trim c) = createFieldMapping c.
Proof.
  unfold createFieldMapping. rewrite <- !nonempty_normalized. split.
  - by rewrite toLowerCase_idem.
  - by rewrite (trim_toLowerCase (trim c)), trim_idem, <- trim_toLowerCase.
Qed.

(** *** The shape of a field key *)

Lemma all_chars_impl (p q : ascii -> bool) s :
  (forall c, p c = true -> q c = true) ->
  all_chars p s = true -> all_chars q s = true.
Proof.
  intros Hpq. induction s as [|c s IH]; [done|]. simpl.
  intros [Hc Hs]%andb_prop. by rewrite (Hpq _ Hc), IH.
Qed.

Lemma all_chars_toLowerCase s :
  all_chars (fun c => negb (is_upper c)) (toLowerCase s) = true.
Proof.
  induction s as [|c s IH]; [done|]. simpl.
  by rewrite (proj2 (proj2 (lower_char_facts c))), IH.
Qed.

Lemma all_chars_app p a b :
  all_chars p (a +:+ b) = all_chars p a && all_chars p b.
Proof.
  induction a as [|c a IH]; [done|]. rewrite append_cons. simpl.
  by rewrite IH, andb_assoc.
Qed.

Lemma all_chars_replace_ws_runs p r b s :
  all_chars p r = true -> all_chars p s = true ->
  all_chars p (replace_ws_runs r b s) = true.
Proof.
  intros Hr. revert b. induction s as [|c s IH]; intros b; [done|]. simpl.
  intros [Hc Hs]%andb_prop.
  destruct (is_whitespace c).
  - destruct b; [by apply IH|]. rewrite all_chars_app, Hr. by apply IH.
  - simpl. rewrite Hc. by apply IH.
Qed.

Lemma normalized_no_upper c :
  all_chars (fun c => negb (is_upper c))
    (replace_ws_runs " " false (trim (toLowerCase c))) = true.
Proof.
  apply all_chars_replace_ws_runs; [done|].
  apply all_chars_trim, all_chars_toLowerCase.
Qed.

(** The only members of [Object.prototype] a normalized category can
    name are [constructor] and [__proto__]. *)
Lemma inherited_normalized c printed :
  inherited (replace_ws_runs " " false (trim (toLowerCase c))) = Some printed ->
  printed = "function Object() { [native code] }" \/ printed = "[object Object]".
Proof.
  pose proof (normalized_no_upper c) as Hup. revert Hup.
  generalize (replace_ws_runs " " false (trim (toLowerCase c))). intros k Hup.
  unfold inherited. intros H%elem_of_list_to_map_2.
  unfold object_prototype in H.
  rewrite !elem_of_cons, elem_of_nil in H.
  repeat destruct H as [H|H]; try done;
    injection H as -> ->; auto; vm_compute in Hup; discriminate.
Qed.

Lemma mappings_values_keys normalized mapped :
  (list_to_map mappings : gmap string string) !! normalized = Some mapped ->
  all_chars is_key_char mapped = true.
Proof.
  intros H%elem_of_list_to_map_2.
  assert (Hall : Forall (fun p => all_chars is_key_char p.2 = true) mappings).
  { unfold mappings. repeat constructor. }
  rewrite Forall_forall in Hall. apply (Hall _ H).
Qed.

(** X4.  Whatever the category, the field key is a non-empty name made of
    lower-case letters, digits and underscores, or one of the two
    members of [Object.prototype] a category can name. *)
Theorem field_key_shape c :
  (exists name, createFieldMapping c = FieldName name
     /\ nonempty name = true /\ all_chars is_key_char name = true)
  \/ createFieldMapping c = PrototypeMember "function Object() { [native code] }"
  \/ createFieldMapping c = PrototypeMember "[object Object]".
Proof.
  unfold createFieldMapping, mappings_get.
  destruct (negb _); [left; by eexists|].
  destruct (_ !! _) as [mapped|] eqn:Hm.
  - cbn [key_truthy]. rewrite (mappings_values_nonempty _ _ Hm).
    left. eexists. split; [done|].
    eauto using mappings_values_nonempty, mappings_values_keys.
  - destruct (inherited _) as [printed|] eqn:Hi;
      cbn [fmap option_fmap option_map key_truthy].
    + right. apply inherited_normalized in Hi as [-> | ->]; auto.
    + left. unfold sanitize. destruct (keep_chars _ _) as [|k ks] eqn:Hk.
      * by eexists.
      * eexists. split; [done|]. split; [done|].
        rewrite <- Hk. apply keep_chars_all.
Qed.

End MoreMappingFacts.

(** ** More on the extractor *)

Section MoreExtractorFacts.

Lemma well_typed_empty : well_typed ∅.
Proof. intros k v H. by rewrite lookup_empty in H. Qed.

Lemma well_typed_insert fields k v :
  well_typed fields ->
  match v with
  | VArr _ => k = "product_tags"
  | VNum _ => k = "price"
  | _ => True
  end ->
  well_typed (<[k := v]> fields).
Proof.
  intros Hf Hv k' v'. rewrite lookup_insert.
  case_decide; [intros [= <-]; by subst|apply Hf].
Qed.

Lemma well_typed_assign o k v :
  well_typed (own o) -> well_typed (own (assign o k v)).
Proof.
  intros H. unfold assign.
  destruct (_ && _); [by destruct v|].
  cbn [set_own own]. apply well_typed_insert; [done|by destruct v].
Qed.

Lemma well_typed_class_item st item :
  well_typed (own (data st)) -> well_typed (own (data (process_class_item st item))).
Proof.
  intros H. unfold process_class_item.
  destruct (truthy_string _); [|done].
  destruct (key_truthy _); [|done]. cbn [data].
  destruct (if bool_decide _ then _ else _) as [value|];
    [|by apply well_typed_assign].
  destruct (key_is _ "product_tags").
  { by apply well_typed_insert. }
  destruct (key_is _ "price"); [|by apply well_typed_assign].
  destruct (parseFloat _); by apply well_typed_insert.
Qed.

Lemma well_typed_line o line :
  well_typed (own o) -> well_typed (own (process_line o line)).
Proof.
  intros H. unfold process_line.
  destruct (match_key_value line) as [[g1 g2]|]; [|done].
  destruct (_ && _); [by apply well_typed_assign|done].
Qed.

Lemma well_typed_fold {A} (f : js_object -> A -> js_object) xs o :
  (forall o x, well_typed (own o) -> well_typed (own (f o x))) ->
  well_typed (own o) -> well_typed (own (fold_left f xs o)).
Proof.
  intros Hf. revert o. induction xs as [|x xs IH]; intros o Ho; [done|].
  simpl. by apply IH, Hf.
Qed.

Lemma well_typed_structured r : well_typed (own (data (structured_state r))).
Proof.
  unfold structured_state.
  generalize (default [] (classes r)). intros items.
  assert (H : well_typed (own (data initial_state))) by apply well_typed_empty.
  revert H. generalize initial_state.
  induction items as [|item items IH]; intros st Hst; [done|].
  simpl. by apply IH, well_typed_class_item.
Qed.

Lemma parse_well_typed results p :
  parseVisualIntelligenceResponse results = Returns p ->
  well_typed (own (extractedData p)).
Proof.
  destruct (forallb readable results) eqn:Hreadable.
  - destruct (readable_all_shaped results Hreadable) as [[|r rest] ->].
    + change (shaped []) with ([] : list Element). rewrite parse_nil.
      intros [= <-]. apply well_typed_empty.
    + rewrite parse_cons. intros [= <-]. cbn [extractedData].
      unfold final_data.
      destruct (enters_fallback r); [|apply well_typed_structured].
      apply well_typed_fold; [apply well_typed_line|apply well_typed_structured].
  - destruct (preview_from_unreadable 0 results Hreadable) as [message Hm].
    unfold parseVisualIntelligenceResponse, entry_preview. by rewrite Hm.
Qed.

(** X5.  In every response of the extractor an array is found under
    product_tags only and a number under price only; every other
    field is a string or [null]. *)
Theorem extracted_fields_typed results p k v :
  parseVisualIntelligenceResponse results = Returns p ->
  own (extractedData p) !! k = Some v ->
  (k = "product_tags" /\ exists items, v = VArr items)
  \/ (k = "price" /\ exists q, v = VNum q)
  \/ v = VNull
  \/ exists s, v = VStr s.
Proof.
  intros Hp Hk. pose proof (parse_well_typed _ _ Hp k v Hk) as Ht.
  destruct v as [|s|q|items].
  - by right; right; left.
  - right; right; right. by exists s.
  - right; left. split; [done|]. by exists q.
  - left. split; [done|]. by exists items.
Qed.

Lemma extracted_fields_typed_witness :
  ("product_tags" = "product_tags" /\ exists items, VArr ["red"; "blue"] = VArr items)
  \/ ("product_tags" = "price" /\ exists q, VArr ["red"; "blue"] = VNum q)
  \/ VArr ["red"; "blue"] = VNull
  \/ exists s, VArr ["red"; "blue"] = VStr s.
Proof.
  pose (reply := shaped [{| classes := Some [{| category := Some "Keywords";
                                                classLabel := Some "red; blue" |}];
                            text := None |}]).
  pose (p := {| rawResults := reply;
                responseText := "Keywords: red; blue";
                extractedData :=
                  set_own empty_object "product_tags" (VArr ["red"; "blue"]) |}).
  apply (extracted_fields_typed reply p "product_tags" (VArr ["red"; "blue"])).
  - vm_compute. reflexivity.
  - vm_compute. reflexivity.
Defined.

(** X6.  The last item of the classes decides its field: when its key is
    none of product_tags, price and [__proto__], its label is stored
    as it came, untrimmed, and "null" as [null], whatever the items
    before it stored. *)
Theorem last_item_wins items item cat t rest :
  category item = Some cat -> nonempty cat = true ->
  key_is (createFieldMapping cat) "product_tags" = false ->
  key_is (createFieldMapping cat) "price" = false ->
  property_key (createFieldMapping cat) <> "__proto__" ->
  exists p,
    parseVisualIntelligenceResponse
      (shaped ({| classes := Some (items ++ [item]); text := t |} :: rest))
    = Returns p
    /\ own (extractedData p) !! property_key (createFieldMapping cat)
       = Some (match classLabel item with
               | Some value => if bool_decide (value = "null") then VNull
                               else VStr value
               | None => VNull
               end).
Proof.
  intros Hc Hn Htags Hprice Hproto.
  rewrite parse_cons. eexists. split; [reflexivity|]. cbn [extractedData].
  set (st := fold_left process_class_item items initial_state).
  assert (Hstep : data (process_class_item st item)
    = assign (data st) (property_key (createFieldMapping cat))
        (if bool_decide (classLabel item = Some "null") then None
         else classLabel item)).
  { unfold process_class_item. rewrite Hc.
    cbn [truthy_string default from_option id].
    rewrite Hn, createFieldMapping_truthy, Htags, Hprice. cbn [data].
    by destruct (if bool_decide _ then _ else _). }
  assert (Hval : own (data (process_class_item st item))
                   !! property_key (createFieldMapping cat)
    = Some (match classLabel item with
            | Some value => if bool_decide (value = "null") then VNull
                            else VStr value
            | None => VNull
            end)).
  { rewrite Hstep, own_assign_same by auto.
    destruct (classLabel item) as [value|]; [|done].
    destruct (decide (value = "null")) as [->|Hne].
    - by rewrite !bool_decide_eq_true_2.
    - rewrite !bool_decide_eq_false_2 by congruence. done. }
  rewrite final_data_structured;
    rewrite (structured_state_app _ items item) by done; fold st.
  - exact Hval.
  - unfold keys_length. intros Hsize%map_size_empty_iff.
    by rewrite Hsize, lookup_empty in Hval.
Qed.

Lemma last_item_wins_witness :
  exists p,
    parseVisualIntelligenceResponse
      (shaped
         [{| classes :=
               Some ([{| category := Some "Color"; classLabel := Some "red" |}]
                     ++ [{| category := Some "COLOR  variant";
                            classLabel := Some " navy blue " |}]);
             text := None |}]) = Returns p
    /\ own (extractedData p) !! "color_variant" = Some (VStr " navy blue ").
Proof.
  refine (last_item_wins
            [{| category := Some "Color"; classLabel := Some "red" |}]
            {| category := Some "COLOR  variant"; classLabel := Some " navy blue " |}
            "COLOR  variant" None [] _ _ _ _ _).
  - reflexivity.
  - reflexivity.
  - vm_compute. reflexivity.
  - vm_compute. reflexivity.
  - vm_compute. intros H. discriminate H.
Defined.

(** X7.  A category that is sanitized to [__proto__] loses its label: while
    the object has its prototype, the item leaves the own properties as
    they were. *)
Theorem proto_key_stores_nothing st item cat :
  category item = Some cat -> nonempty cat = true ->
  createFieldMapping cat = FieldName "__proto__" ->
  has_prototype (data st) = true ->
  own (data (process_class_item st item)) = own (data st).
Proof.
  intros Hc Hn Hk Hp. unfold process_class_item.
  rewrite Hc. cbn [truthy_string default from_option id].
  rewrite Hn, Hk. cbn [key_truthy nonempty key_is property_key data].
  rewrite (bool_decide_eq_false_2 ("__proto__" = "product_tags")) by done.
  rewrite (bool_decide_eq_false_2 ("__proto__" = "price")) by done.
  unfold assign. rewrite Hp.
  rewrite (bool_decide_eq_true_2 ("__proto__" = "__proto__")) by done. cbn [andb].
  by destruct (if bool_decide _ then _ else _).
Qed.

Lemma proto_key_stores_nothing_witness :
  own (data (process_class_item initial_state
               {| category := Some "(__PROTO__)"; classLabel := Some "navy" |}))
  = ∅.
Proof.
  apply (proto_key_stores_nothing initial_state
           {| category := Some "(__PROTO__)"; classLabel := Some "navy" |}
           "(__PROTO__)"); try reflexivity.
Defined.

(** *** Lines of the fallback path *)

Lemma span_all p s : all_chars p s = true -> span p s = (s, "").
Proof.
  induction s as [|c s IH]; [done|]. simpl. intros [Hc Hs]%andb_prop.
  by rewrite Hc, (IH Hs).
Qed.

Lemma span_app_stop p a c b :
  all_chars p a = true -> p c = false ->
  span p (a +:+ String c b) = (a, String c b).
Proof.
  intros Ha Hc. induction a as [|d a IH].
  - change ("" +:+ String c b) with (String c b). simpl. by rewrite Hc.
  - simpl in Ha. apply andb_prop in Ha as [Hd Ha].
    rewrite append_cons. simpl. by rewrite Hd, (IH Ha).
Qed.

Lemma drop_length_app a b : drop (String.length a) (a +:+ b) = b.
Proof. induction a as [|c a IH]; [by destruct b|]. by rewrite append_cons. Qed.

Lemma find_countdown_top (fits : nat -> bool) k :
  fits k = true -> List.find fits (countdown k) = Some k.
Proof. intros H. destruct k; simpl; by rewrite H. Qed.

(** X9.  A line laid out as key, colon, blanks, value is read back as that
    key and that value. *)
Theorem key_value_line_read_back key blanks value :
  nonempty key = true -> all_chars is_not_colon key = true ->
  all_chars is_whitespace blanks = true ->
  nonempty value = true -> starts_clean value = true ->
  all_chars (fun c => negb (is_line_terminator c)) value = true ->
  match_key_value (key +:+ ":" +:+ blanks +:+ value) = Some (key, value).
Proof.
  intros Hk Hkc Hb Hv Hclean Hlt. unfold match_key_value.
  change (":" +:+ blanks +:+ value) with (String ":" (blanks +:+ value)).
  rewrite (span_app_stop is_not_colon key ":" (blanks +:+ value)) by done.
  destruct key as [|k0 key]; [done|].
  destruct value as [|v0 value]; [done|].
  simpl in Hclean. apply negb_true_iff in Hclean.
  rewrite (span_app_stop is_whitespace blanks v0 value) by done.
  cbn [fst]. rewrite find_countdown_top; rewrite drop_length_app; [done|].
  by rewrite Hlt.
Qed.

Lemma key_value_line_read_back_witness :
  match_key_value "Product Title:  Blue Jacket: slim fit"
  = Some ("Product Title", "Blue Jacket: slim fit").
Proof.
  apply (key_value_line_read_back "Product Title" "  " "Blue Jacket: slim fit");
    reflexivity.
Defined.

(** A line that ends in a carriage return is never read. *)
Lemma all_chars_drop_false p j s c :
  p c = false -> nonempty (drop j (s +:+ String c "")) = true ->
  all_chars p (drop j (s +:+ String c "")) = false.
Proof.
  intros Hc. revert j. induction s as [|d s IH]; intros j.
  - destruct j as [|[|j]]; simpl; [by rewrite Hc|done|done].
  - destruct j as [|j].
    + intros _. cbn [drop]. rewrite all_chars_app. simpl.
      rewrite Hc. by rewrite !andb_false_r.
    + rewrite append_cons. cbn [drop]. apply IH.
Qed.

Lemma find_none {A} (f : A -> bool) xs :
  (forall x, f x = false) -> List.find f xs = None.
Proof. intros H. induction xs as [|x xs IH]; [done|]. simpl. by rewrite H. Qed.

Lemma span_rest_suffix p s key rest c :
  span p (s +:+ String c "") = (key, rest) ->
  rest = "" \/ exists r, rest = r +:+ String c "".
Proof.
  revert key rest. induction s as [|d s IH]; intros key rest.
  - simpl. destruct (p c); intros [= <- <-]; [by left|right; by exists ""].
  - rewrite append_cons. simpl. destruct (p d).
    + destruct (span p (s +:+ String c "")) as [a b] eqn:Hs.
      intros [= <- <-]. by apply (IH a b).
    + intros [= <- <-]. right. by exists (String d s).
Qed.

Lemma carriage_return_line_unread s :
  match_key_value (s +:+ String CR "") = None.
Proof.
  unfold match_key_value.
  destruct (span is_not_colon (s +:+ String CR "")) as [key rest] eqn:Hspan.
  apply span_rest_suffix in Hspan as [-> | [r ->]].
  - by destruct key.
  - destruct key as [|k0 key]; [done|].
    destruct r as [|r0 r]; cbn [String.append].
    + reflexivity.
    + rewrite append_cons.
      rewrite find_none; [done|]. intros j.
      destruct (nonempty (drop j (r +:+ String CR ""))) eqn:Hne; [|done].
      by rewrite (all_chars_drop_false _ j r CR).
Qed.

Lemma process_line_cr o s : process_line o (s +:+ String CR "") = o.
Proof. unfold process_line. by rewrite carriage_return_line_unread. Qed.

(** X10.  A text whose lines all end in a carriage return, as a text with
    Windows line ends does, yields no field: the fallback path returns
    the text and an empty [extractedData]. *)
Theorem crlf_text_yields_nothing r rest t :
  classes r = None -> text r = Some t ->
  (forall line, line ∈ text_lines t -> exists s, line = s +:+ String CR "") ->
  parseVisualIntelligenceResponse (shaped (r :: rest))
  = Returns {| rawResults := shaped (r :: rest);
               responseText := t;
               extractedData := empty_object |}.
Proof.
  intros Hc Ht Hlines. rewrite parse_cons.
  unfold final_text, final_data, enters_fallback, structured_state.
  rewrite Hc, Ht. cbn [default from_option id fold_left initial_state data
    combinedText keys_length empty_object own truthy_string].
  change (size (∅ : gmap string jsval) =? 0)%nat with true. cbn [andb].
  destruct (nonempty t) eqn:Hne.
  - do 2 f_equal.
    assert (H : forall o, fold_left process_line (text_lines t) o = o).
    { revert Hlines. generalize (text_lines t). intros lines Hlines.
      induction lines as [|line lines IH]; intros o; [done|].
      destruct (Hlines line) as [s ->]; [by left|].
      simpl. rewrite process_line_cr. apply IH.
      intros l Hl. apply Hlines. by right. }
    apply H.
  - by destruct t.
Qed.

Lemma crlf_text_yields_nothing_witness :
  parseVisualIntelligenceResponse
    (shaped
       [{| classes := None;
           text := Some ("Title: Blue Jacket" +:+ String CR (String LF
                         ("Color: Navy" +:+ String CR (String LF "")))) |}])
  = Returns
      {| rawResults :=
           shaped
             [{| classes := None;
                 text := Some ("Title: Blue Jacket" +:+ String CR (String LF
                               ("Color: Navy" +:+ String CR (String LF "")))) |}];
         responseText :=
           "Title: Blue Jacket" +:+ String CR (String LF
             ("Color: Navy" +:+ String CR (String LF "")));
         extractedData := empty_object |}.
Proof.
  apply crlf_text_yields_nothing; [reflexivity|reflexivity|].
  intros line Hline. vm_compute in Hline.
  apply elem_of_cons in Hline as [->|Hline]; [by exists "Title: Blue Jacket"|].
  apply elem_of_cons in Hline as [->|Hline]; [by exists "Color: Navy"|].
  by apply elem_of_nil in Hline.
Defined.

(** *** Prices *)

Lemma span_no_match p s :
  all_chars (fun c => negb (p c)) s = true -> fst (span p s) = "".
Proof. destruct s as [|c s]; [done|]. simpl. by intros [->%negb_true_iff _]%andb_prop. Qed.

Lemma parseFloat_needs_digit s :
  all_chars (fun c => negb (is_digit c)) s = true -> parseFloat s = None.
Proof.
  intros H. unfold parseFloat.
  pose proof (all_chars_trim_start _ _ H) as Ht. revert Ht.
  generalize (trim_start s). clear. intros s H.
  assert (Htail : forall (negative : bool) r,
    all_chars (fun c => negb (is_digit c)) r = true ->
    (let '(int_part, r0) := span is_digit r in
     let frac_part := match r0 with
                      | String "."%char r' => (span is_digit r').1
                      | _ => ""
                      end in
     if nonempty int_part || nonempty frac_part
     then
       let scale := Pos.pow 10 (Pos.of_nat (String.length frac_part)) in
       let scale := if nonempty frac_part then scale else 1%positive in
       let mantissa :=
         (digits_value int_part * Npos scale + digits_value frac_part)%N in
       let magnitude := Z.of_N mantissa in
       Some (Qred ((if negative then - magnitude else magnitude)%Z # scale))
     else None) = None).
  { intros negative r Hr. destruct r as [|c r]; [done|]. simpl in Hr.
    apply andb_prop in Hr as [Hc Hr]. apply negb_true_iff in Hc.
    cbn [span]. rewrite Hc.
    destruct (Ascii.eqb_spec c "."%char) as [->|Hne].
    - cbv zeta. by rewrite (span_no_match is_digit r Hr).
    - destruct c as [[] [] [] [] [] [] [] []]; try done. }
  destruct s as [|c s]; [reflexivity|].
  pose proof H as Hs. simpl in Hs. apply andb_prop in Hs as [_ Hs].
  destruct c as [[] [] [] [] [] [] [] []];
    first [exact (Htail true s Hs) | exact (Htail false s Hs)
          | exact (Htail false _ H)].
Qed.

(** X8.  A label without a digit is never a price: an item that resolves to
    price keeps such a label, as it came, under price_text. *)
Theorem price_needs_digit items item cat value t rest :
  category item = Some cat -> nonempty cat = true ->
  key_is (createFieldMapping cat) "price" = true ->
  classLabel item = Some value -> value <> "null" ->
  all_chars (fun c => negb (is_digit c)) value = true ->
  exists p,
    parseVisualIntelligenceResponse
      (shaped ({| classes := Some (items ++ [item]); text := t |} :: rest))
    = Returns p
    /\ own (extractedData p) !! "price_text" = Some (VStr value).
Proof.
  intros Hc Hn Hk Hl Hv Hd.
  assert (Hparse : parseFloat (price_string value) = None).
  { apply parseFloat_needs_digit. unfold price_string.
    clear -Hd. induction value as [|c v IH]; [done|]. simpl in Hd |- *.
    apply andb_prop in Hd as [Hc Hv].
    destruct (is_price_char c); [|by apply IH]. simpl. by rewrite Hc, IH. }
  rewrite parse_cons. eexists. split; [reflexivity|]. cbn [extractedData].
  set (st := fold_left process_class_item items initial_state).
  assert (Hstep : data (process_class_item st item)
                  = set_own (data st) "price_text" (VStr value)).
  { unfold process_class_item. rewrite Hc, Hl.
    cbn [truthy_string default from_option id].
    rewrite Hn, createFieldMapping_truthy.
    rewrite bool_decide_eq_false_2 by congruence.
    destruct (createFieldMapping cat) as [name|]; [|done].
    cbn [key_is] in Hk |- *. apply bool_decide_eq_true in Hk as ->.
    rewrite (bool_decide_eq_false_2 ("price" = "product_tags")) by done.
    rewrite (bool_decide_eq_true_2 ("price" = "price")) by done.
    by rewrite Hparse. }
  rewrite final_data_structured;
    rewrite (structured_state_app _ items item) by done; fold st; rewrite Hstep.
  - cbn [set_own own]. apply lookup_insert_eq.
  - apply keys_length_set_own.
Qed.

Lemma price_needs_digit_witness :
  exists p,
    parseVisualIntelligenceResponse
      (shaped
         [{| classes := Some ([] ++ [{| category := Some "Cost";
                                        classLabel := Some "-- on request --" |}]);
             text := None |}]) = Returns p
    /\ own (extractedData p) !! "price_text" = Some (VStr "-- on request --").
Proof.
  refine (price_needs_digit []
            {| category := Some "Cost"; classLabel := Some "-- on request --" |}
            "Cost" "-- on request --" None [] _ _ _ _ _ _).
  - reflexivity.
  - reflexivity.
  - vm_compute. reflexivity.
  - reflexivity.
  - intros H. discriminate H.
  - reflexivity.
Defined.

End MoreExtractorFacts.

(** ** Batches *)

Section BatchFacts.

(** The entries collected so far are only ever extended. *)
Lemma batch_fold_acc {W} (client : Client.Processors W) questions productType
    checkboxQuestions images w acc :
  fold_left (Client.batch_step client questions productType checkboxQuestions)
    images (w, acc)
  = ((Client.processBatch client images questions productType checkboxQuestions w).1,
     acc ++
     (Client.processBatch client images questions productType checkboxQuestions w).2).
Proof.
  unfold Client.processBatch.
  revert w acc. induction images as [|image images IH]; intros w acc.
  - simpl. by rewrite app_nil_r.
  - cbn [fold_left]. unfold Client.batch_step at 2 4 6.
    destruct (Client.process_image _ _ _ _ _ _) as [w' [result|message]];
      rewrite IH, (IH w' ([] ++ _)); cbn [fst snd]; by rewrite app_assoc.
Qed.

(** A batch is processed image by image: the images after a prefix see
    the state the prefix left, and their entries follow its entries. *)
Lemma batch_sequential {W} (client : Client.Processors W) questions productType
    checkboxQuestions images images' w :
  Client.processBatch client (images ++ images') questions productType
    checkboxQuestions w
  = let '(w1, entries) :=
      Client.processBatch client images questions productType checkboxQuestions w in
    let '(w2, entries') :=
      Client.processBatch client images' questions productType checkboxQuestions w1 in
    (w2, entries ++ entries').
Proof.
  unfold Client.processBatch at 1. rewrite fold_left_app.
  fold (Client.processBatch client images questions productType checkboxQuestions w).
  destruct (Client.processBatch client images _ _ _ w) as [w1 entries].
  rewrite batch_fold_acc.
  by destruct (Client.processBatch client images' _ _ _ w1) as [w2 entries'].
Qed.

(** X11.  Whatever the processing methods do, the batch returns one entry for
    every image, in the order of the images, each named by the path of
    its image, else its url, else "uploaded-image". *)
Theorem batch_one_entry_per_image {W} (client : Client.Processors W) questions
    productType checkboxQuestions images w :
  List.map Client.entry_label
    (Client.processBatch client images questions productType checkboxQuestions w).2
  = List.map Client.image_label images.
Proof.
  revert w. induction images as [|image images IH]; intros w; [done|].
  change (image :: images) with ([image] ++ images).
  rewrite batch_sequential.
  destruct (Client.processBatch client [image] _ _ _ w) as [w1 entries] eqn:H1.
  specialize (IH w1).
  destruct (Client.processBatch client images _ _ _ w1) as [w2 entries'].
  cbn [snd] in *. rewrite map_app, IH. cbn [app List.map]. f_equal.
  unfold Client.processBatch in H1. cbn [fold_left] in H1.
  unfold Client.batch_step in H1.
  destruct (Client.process_image _ _ _ _ _ _) as [w' [result|message]];
    by injection H1 as <- <-.
Qed.

(** X12.  An image with no path, no url and no data with a mime type costs no
    call: the state is passed on as it is, the image gets a failed
    entry, and the images around it are processed as without it. *)
Theorem batch_invalid_image {W} (client : Client.Processors W) questions
    productType checkboxQuestions before invalid after w :
  truthy_string (Client.path invalid) = false ->
  truthy_string (Client.url invalid) = false ->
  Client.data invalid = None \/ truthy_string (Client.mimeType invalid) = false ->
  Client.processBatch client (before ++ invalid :: after) questions productType
    checkboxQuestions w
  = let '(w1, entries) :=
      Client.processBatch client before questions productType checkboxQuestions w in
    let '(w2, entries') :=
      Client.processBatch client after questions productType checkboxQuestions w1 in
    (w2,
     entries ++
     Client.Failed "uploaded-image"
       "Invalid image format. Must provide path, url, or data+mimeType"
     :: entries').
Proof.
  intros Hpath Hurl Hdata.
  rewrite batch_sequential.
  destruct (Client.processBatch client before _ _ _ w) as [w1 entries].
  change (invalid :: after) with ([invalid] ++ after).
  rewrite batch_sequential.
  assert (H1 : Client.processBatch client [invalid] questions productType
                 checkboxQuestions w1
    = (w1, [Client.Failed "uploaded-image"
              "Invalid image format. Must provide path, url, or data+mimeType"])).
  { unfold Client.processBatch. cbn [fold_left].
    unfold Client.batch_step, Client.process_image, Client.image_label.
    rewrite Hpath, Hurl.
    destruct Hdata as [-> | ->]; [done|]. by rewrite andb_false_r. }
  rewrite H1.
  by destruct (Client.processBatch client after _ _ _ w1) as [w2 entries'].
Qed.

End BatchFacts.

Lemma batch_invalid_image_witness :
  let counting : Client.Processors nat :=
    {| Client.processImageByPath := fun _ _ _ _ calls =>
         (S calls, Returns (initial_response []));
       Client.processImageByUrl := fun _ _ _ _ calls =>
         (S calls, Throws "fetch failed");
       Client.processImageData := fun _ _ _ _ _ calls =>
         (S calls, Returns (initial_response [])) |} in
  let image p u d m :=
    {| Client.path := p; Client.url := u; Client.data := d; Client.mimeType := m |} in
  Client.processBatch counting
    ([image (Some "a.jpg") None None None]
     ++ image (Some "") None (Some "bytes") None
     :: [image None (Some "https://shop.example/b.png") None None])
    None None [] 0%nat
  = (2%nat,
     [Client.Succeeded "a.jpg" (initial_response [])]
     ++ Client.Failed "uploaded-image"
          "Invalid image format. Must provide path, url, or data+mimeType"
     :: [Client.Failed "https://shop.example/b.png" "fetch failed"]).
Proof.
  intros counting image.
  apply (batch_invalid_image counting None None []
           [image (Some "a.jpg") None None None]
           (image (Some "") None (Some "bytes") None)
           [image None (Some "https://shop.example/b.png") None None] 0%nat).
  - reflexivity.
  - reflexivity.
  - right. reflexivity.
Defined.

(** ** The processing route *)

Section RouteFacts.
Import ProcessRoute.

Lemma push_enabled_sublist config entries acc :
  exists enabled,
    push_enabled config entries acc = acc ++ enabled
    /\ enabled `sublist_of` List.map snd entries.
Proof.
  revert acc. induction entries as [|[key value] entries IH]; intros acc.
  - exists []. simpl. by rewrite app_nil_r.
  - simpl. destruct (config_flag config key) as [[|]|message].
    + destruct (IH (push acc value)) as (enabled & -> & Hsub).
      exists (value :: enabled). unfold push. rewrite <- app_assoc.
      split; [done|]. by apply sublist_skip.
    + destruct (IH acc) as (enabled & -> & Hsub).
      exists enabled. split; [done|]. by apply sublist_cons.
    + exists []. rewrite app_nil_r. split; [done|]. apply sublist_nil_l.
Qed.

(** X13.  Whatever the form field holds and whatever the parser makes of it,
    the options the route hands to the client are some of the six
    content options, each at most once and in their declaration order;
    none of them is a person option. *)
Theorem route_options_are_content_options JSON_parse contentConfig :
  parse_content_config JSON_parse contentConfig
    `sublist_of` List.map fst content_options
  /\ hasPersonFlag (parse_content_config JSON_parse contentConfig) = false.
Proof.
  assert (Hsub : parse_content_config JSON_parse contentConfig
                   `sublist_of` List.map fst content_options).
  { unfold parse_content_config.
    destruct (truthy_string contentConfig); [|apply sublist_nil_l].
    destruct (JSON_parse _) as [config|message]; [|apply sublist_nil_l].
    destruct (push_enabled_sublist config configMapping []) as (enabled & -> & H).
    exact H. }
  split; [exact Hsub|].
  unfold hasPersonFlag. apply not_true_is_false. intros H.
  apply existsb_exists in H as (o & Ho & Hin).
  unfold array_includes in Hin. apply bool_decide_eq_true in Hin.
  apply (fun H => elem_of_sublist _ _ _ H Hsub) in Hin.
  unfold person_options in Ho. cbn in Hin.
  rewrite !elem_of_cons, elem_of_nil in Hin.
  repeat destruct Ho as [<-|Ho]; try done;
    intuition discriminate.
Qed.

Lemma push_enabled_object fields entries acc :
  push_enabled (JObj fields) entries acc
  = acc ++ List.map snd
             (List.filter
                (fun entry => match last_field fields (fst entry) with
                              | Some v => json_truthy v
                              | None => false
                              end) entries).
Proof.
  revert acc. induction entries as [|[key value] entries IH]; intros acc.
  - simpl. by rewrite app_nil_r.
  - cbn [push_enabled config_flag List.filter fst].
    destruct (match last_field fields key with
              | Some v => json_truthy v
              | None => false
              end).
    + rewrite IH. unfold push. by rewrite <- app_assoc.
    + apply IH.
Qed.

Lemma push_enabled_not_object config entries :
  match config with JObj _ => False | _ => True end ->
  push_enabled config entries [] = [].
Proof.
  intros H. induction entries as [|[key value] entries IH]; [done|].
  destruct config; try done; simpl; exact IH.
Qed.

(** X14.  The options of a request are read off the parsed config: for an
    object, the keys of [configMapping] whose last value is truthy, in
    declaration order; for anything else the parser returns, and when
    it throws or the field is missing or empty, none.  The one prompt
    of the Pop the route sets lists the product type, the questions and
    the phrases of exactly these options. *)
Theorem route_config_read JSON_parse questions productType contentConfig :
  let enabled :=
    match contentConfig with
    | Some s =>
        if nonempty s then
          match JSON_parse s with
          | Returns (JObj fields) =>
              List.map snd
                (List.filter
                   (fun entry => match last_field fields (fst entry) with
                                 | Some v => json_truthy v
                                 | None => false
                                 end) configMapping)
          | _ => []
          end
        else []
    | None => []
    end in
  parse_content_config JSON_parse contentConfig = enabled
  /\ Pop.pop_prompts (request_pop JSON_parse questions productType contentConfig)
     = [prompt_head
        +:+ join ", " (spec_categories questions (or_undefined productType) enabled)
        +:+ prompt_tail].
Proof.
  intros enabled.
  assert (H : parse_content_config JSON_parse contentConfig = enabled).
  { subst enabled. unfold parse_content_config.
    destruct contentConfig as [s|]; [|done]. cbn [truthy_string default from_option id].
    destruct (nonempty s); [|done].
    destruct (JSON_parse s) as [config|message]; [|done].
    destruct config; try (by apply push_enabled_not_object).
    by rewrite push_enabled_object. }
  split; [exact H|].
  unfold request_pop, Client.createVisualIntelligencePop, Pop.pop_prompts.
  cbn. rewrite H. unfold buildComprehensivePrompt.
  by rewrite build_categories_spec.
Qed.

End RouteFacts.

(** ** The export route *)

Section ExportFacts.
Import ShopifyExport.

Lemma substring_to_length n s : String.length (substring_to n s) <= n.
Proof.
  revert s. induction n as [|n IH]; intros s; [done|].
  destruct s as [|c s]; simpl; [lia|]. specialize (IH s). lia.
Qed.

Lemma replace_line_breaks_clean r s :
  all_chars (fun c => negb (code c =? 10)%N) r = true ->
  all_chars (fun c => negb (code c =? 10)%N) (replace_line_breaks r s) = true.
Proof.
  intros Hr. induction s as [|c s IH]; [done|]. simpl.
  destruct (code c =? 10)%N eqn:Hc.
  - by rewrite all_chars_app, Hr, IH.
  - simpl. by rewrite Hc, IH.
Qed.

(** X15.  The tags of a product are never empty, and tags stored as a string
    are split as the extractor splits them. *)
Theorem export_tags stored productType s :
  product_tags stored productType <> []
  /\ product_tags (Some (VStr s)) productType
     = product_tags (Some (VArr (split_tags s))) productType
  /\ (forall items, items <> [] ->
        product_tags (Some (VArr items)) productType = items).
Proof.
  split; [|split].
  - unfold product_tags, or_else.
    destruct stored as [[| v | q | items]|]; cbn [truthy]; try done.
    + destruct (nonempty v); [|done].
      by destruct (split_tags v).
    + by destruct (negb _).
    + by destruct items.
  - unfold product_tags, or_else. cbn [truthy].
    destruct s as [|c s]; [done|]. cbn [nonempty]. done.
  - intros items Hne. unfold product_tags, or_else. cbn [truthy].
    by destruct items.
Qed.

Lemma substring_of_inv name v n s :
  substring_of name v n = Returns s -> exists full, v = VStr full /\ s = substring_to n full.
Proof. destruct v; try done. intros [= <-]. by eexists. Qed.

(** X16.  What the export hands to [productCreate]: a title that is a
    non-empty string, tags that are not empty, an SEO title of at most
    70 and an SEO description of at most 320 characters, and a
    description without line feed. *)
Theorem export_product_shape Number_toString result i input :
  product_input Number_toString result i = Returns input ->
  (exists s, title input = VStr s /\ nonempty s = true)
  /\ tags input <> []
  /\ String.length (seo_title input) <= 70
  /\ String.length (seo_description input) <= 320
  /\ all_chars (fun c => negb (code c =? 10)%N) (descriptionHtml input) = true.
Proof.
  unfold product_input.
  set (stored := rawJson result ≫= raw_extractedData).
  set (extractedData := default ∅ stored).
  set (productTitle := or_else (extractedData !! "product_title") _).
  set (productDescription := or_else (extractedData !! "product_description") _).
  set (seo := if truthy _ then _ else _).
  destruct seo as [seoDescription|message]; [|done].
  cbn [mbind outcome_bind].
  destruct (substring_of "productTitle" productTitle 50) as [logged|] eqn:Hlog;
    [|done]. cbn [mbind outcome_bind].
  destruct (substring_of "productTitle" productTitle 70) as [seoTitle|] eqn:Ht;
    [|done]. cbn [mbind outcome_bind].
  destruct (substring_of "seoDescription" seoDescription 320) as [seoShort|] eqn:Hs;
    [|done]. cbn [mbind outcome_bind].
  intros [= <-]. cbn [title tags seo_title seo_description descriptionHtml].
  apply substring_of_inv in Ht as (full & Hfull & ->).
  apply substring_of_inv in Hs as (fullseo & _ & ->).
  repeat split.
  - exists full. split; [done|].
    subst productTitle. unfold or_else in Hfull.
    destruct (extractedData !! "product_title") as [v|].
    + destruct (truthy v) eqn:Hv; [by subst v|by injection Hfull as <-].
    + by injection Hfull as <-.
  - apply export_tags; exact "".
  - apply substring_to_length.
  - apply substring_to_length.
  - rewrite !all_chars_app. rewrite replace_line_breaks_clean by done. done.
Qed.

Lemma export_product_shape_witness :
  exists input,
    product_input (fun _ => "19.99")
      {| rawJson :=
           Some {| raw_extractedData :=
                     Some {[ "product_title" := VStr "Blue Jacket" ]};
                   raw_productType := Some "Apparel";
                   raw_defaultVendor := None |};
         result_id := None; result_productType := None;
         result_defaultVendor := None |} 0
    = Returns input
    /\ ((exists s, title input = VStr s /\ nonempty s = true)
        /\ tags input <> []
        /\ String.length (seo_title input) <= 70
        /\ String.length (seo_description input) <= 320
        /\ all_chars (fun c => negb (code c =? 10)%N) (descriptionHtml input) = true).
Proof.
  eexists. split; [vm_compute; reflexivity|].
  apply (export_product_shape (fun _ => "19.99")
           {| rawJson :=
                Some {| raw_extractedData :=
                          Some {[ "product_title" := VStr "Blue Jacket" ]};
                        raw_productType := Some "Apparel";
                        raw_defaultVendor := None |};
              result_id := None; result_productType := None;
              result_defaultVendor := None |} 0).
  vm_compute. reflexivity.
Defined.

Lemma well_typed_string fields k d :
  well_typed fields -> k <> "product_tags" -> k <> "price" ->
  exists s, or_else (fields !! k) (VStr d) = VStr s.
Proof.
  intros Ht Hk1 Hk2. unfold or_else.
  destruct (fields !! k) as [v|] eqn:Hv; [|by eexists].
  specialize (Ht k v Hv).
  destruct v as [| s | q | items]; cbn [truthy]; try done; try by eexists.
  destruct (nonempty s); by eexists.
Qed.

Lemma product_input_well_typed Number_toString result i fields :
  rawJson result ≫= raw_extractedData = Some fields ->
  well_typed fields ->
  exists input, product_input Number_toString result i = Returns input.
Proof.
  intros Hraw Ht. unfold product_input. rewrite Hraw. cbv zeta.
  change (default ∅ (Some fields)) with fields.
  match goal with
  | |- context [or_else (fields !! "product_title") (VStr ?d)] =>
      destruct (well_typed_string fields "product_title" d Ht) as [t ->];
      [done..|]
  end.
  destruct (well_typed_string fields "product_description"
              "AI-generated product description." Ht) as [d ->]; [done..|].
  assert (Hseo : exists s,
    (if truthy (or_else (fields !! "seo_description") VNull)
     then Returns (or_else (fields !! "seo_description") VNull)
     else short ← substring_of "productDescription" (VStr d) 320;
          Returns (VStr short)) = Returns (VStr s)).
  { unfold or_else. destruct (fields !! "seo_description") as [v|] eqn:Hv.
    - specialize (Ht _ v Hv). destruct (truthy v) eqn:Hv'.
      + rewrite Hv'. destruct v as [| s | q | items]; try done. by exists s.
      + by eexists.
    - by eexists. }
  destruct Hseo as [s ->]. cbn [mbind outcome_bind substring_of]. by eexists.
Qed.

(** X17.  The export accepts what the extractor returned: on the
    [extractedData] of any response of the extractor no step of the
    mapping throws, whatever the other fields of the result are. *)
Theorem export_accepts_extracted_fields Number_toString results p result raw i :
  parseVisualIntelligenceResponse results = Returns p ->
  rawJson result = Some raw ->
  raw_extractedData raw = Some (own (extractedData p)) ->
  exists input, product_input Number_toString result i = Returns input.
Proof.
  intros Hp Hraw Hdata.
  apply (product_input_well_typed _ _ _ (own (extractedData p))).
  - by rewrite Hraw.
  - by apply (parse_well_typed results).
Qed.

Lemma export_accepts_extracted_fields_witness :
  exists input,
    product_input (fun _ => "19.99")
      {| rawJson :=
           Some {| raw_extractedData := Some {[ "product_tags" := VArr ["red"; "blue"] ]};
                   raw_productType := None;
                   raw_defaultVendor := None |};
         result_id := Some "image-1"; result_productType := None;
         result_defaultVendor := None |} 0
    = Returns input.
Proof.
  pose (reply := shaped [{| classes := Some [{| category := Some "Keywords";
                                                classLabel := Some "red; blue" |}];
                            text := None |}]).
  pose (p := {| rawResults := reply;
                responseText := "Keywords: red; blue";
                extractedData :=
                  set_own empty_object "product_tags" (VArr ["red"; "blue"]) |}).
  apply (export_accepts_extracted_fields (fun _ => "19.99") reply p
           {| rawJson :=
                Some {| raw_extractedData :=
                          Some {[ "product_tags" := VArr ["red"; "blue"] ]};
                        raw_productType := None;
                        raw_defaultVendor := None |};
              result_id := Some "image-1"; result_productType := None;
              result_defaultVendor := None |}
           {| raw_extractedData := Some {[ "product_tags" := VArr ["red"; "blue"] ]};
              raw_productType := None;
              raw_defaultVendor := None |} 0).
  - vm_compute. reflexivity.
  - reflexivity.
  - vm_compute. reflexivity.
Defined.

(** A title that is not a string, which the extractor never stores,
    makes the mapping throw. *)
Example export_rejects_number_title Number_toString :
  product_input Number_toString
    {| rawJson := Some {| raw_extractedData := Some {[ "product_title" := VNum 5 ]};
                          raw_productType := None; raw_defaultVendor := None |};
       result_id := None; result_productType := None;
       result_defaultVendor := None |} 0
  = Throws "productTitle.substring is not a function".
Proof. vm_compute. reflexivity. Qed.

End ExportFacts.

(** ** The Pops of the configuration test *)

Section TestPopFacts.
Import Pop TestPop.

Lemma hasPersonQuestions_true checkboxQuestions :
  hasPersonQuestions checkboxQuestions = true
  <-> exists o, o ∈ checkboxQuestions /\ o ∈ person_options.
Proof.
  unfold hasPersonQuestions. rewrite existsb_exists. split.
  - intros (o & Hin & Ho). exists o. split; [by apply list_elem_of_In|].
    by apply bool_decide_eq_true in Ho.
  - intros (o & Hin & Ho). exists o. split; [by apply list_elem_of_In|].
    by apply bool_decide_eq_true.
Qed.

(** X18.  With one of the four person options among the checkboxes the test
    Pop is the person analysis Pop: one prompt that carries the person
    preamble and every question, and that the product type does not
    reach. *)
Theorem test_pop_person_mode questions productType productType'
    checkboxQuestions o :
  o ∈ checkboxQuestions -> o ∈ person_options ->
  createTestPop questions productType checkboxQuestions
  = createTestPop questions productType' checkboxQuestions
  /\ exists text,
       pop_prompts (createTestPop questions productType checkboxQuestions) = [text]
       /\ starts_with text
            ("Analyze the image provided and determine the following: "
             +:+ person_preamble) = true
       /\ forall question, question ∈ questions -> includes text question = true.
Proof.
  intros Hin Ho.
  assert (Hp : hasPersonQuestions checkboxQuestions = true).
  { apply hasPersonQuestions_true. by exists o. }
  unfold createTestPop. rewrite Hp. split; [done|].
  eexists. split; [reflexivity|]. unfold person_prompt_text. rewrite Hp.
  split.
  - assert (Hhead : starts_with
                      ("Analyze the image provided and determine the following:"
                       +:+ (" " +:+ person_preamble))
                      ("Analyze the image provided and determine the following: "
                       +:+ person_preamble) = true)
      by (vm_compute; reflexivity).
    destruct (0 <? _)%nat.
    + apply starts_with_app_l, starts_with_app_l, Hhead.
    + apply starts_with_app_l, Hhead.
  - intros q Hq.
    assert (Hlen : (0 <? length (questions ++ person_checkbox_prompts checkboxQuestions))%nat
                   = true).
    { destruct questions; [by apply elem_of_nil in Hq|done]. }
    rewrite Hlen. apply includes_app_l, includes_app_r, includes_app_r.
    apply includes_join, elem_of_app. by left.
Qed.

Lemma test_pop_person_mode_witness :
  createTestPop ["what is the collar style"] (Some "t-shirt") ["productTitle"; "gender"]
  = createTestPop ["what is the collar style"] None ["productTitle"; "gender"]
  /\ exists text,
       pop_prompts
         (createTestPop ["what is the collar style"] (Some "t-shirt")
            ["productTitle"; "gender"]) = [text]
       /\ starts_with text
            ("Analyze the image provided and determine the following: "
             +:+ person_preamble) = true
       /\ forall question, question ∈ ["what is the collar style"] ->
            includes text question = true.
Proof.
  apply (test_pop_person_mode ["what is the collar style"] (Some "t-shirt") None
           ["productTitle"; "gender"] "gender").
  - repeat constructor.
  - unfold person_options. repeat constructor.
Defined.

Lemma starts_with_one_char s a b :
  starts_with s (String a "") = true -> starts_with s (String b "") = true -> a = b.
Proof.
  destruct s as [|c s]; [done|]. simpl.
  destruct (Ascii.eqb a c) eqn:Ha; [|done]. destruct (Ascii.eqb b c) eqn:Hb; [|done].
  apply Ascii.eqb_eq in Ha, Hb. congruence.
Qed.

Lemma client_prompt_line_break questions productType checkboxQuestions :
  starts_with (buildComprehensivePrompt questions productType checkboxQuestions)
    line_break = true.
Proof.
  unfold buildComprehensivePrompt. apply starts_with_app_l.
  vm_compute. reflexivity.
Qed.

(** X19.  Without a person option the test Pop has two components with the
    same prompts: every question as a prompt of its own, after the
    prompt of the product type when there is one. *)
Theorem test_pop_product_mode questions productType checkboxQuestions :
  (forall o, o ∈ checkboxQuestions -> o ∉ person_options) ->
  exists texts,
    pop_prompts (createTestPop questions productType checkboxQuestions)
    = texts ++ texts
    /\ (forall question, question ∈ questions -> question ∈ texts)
    /\ (forall pt, productType = Some pt -> nonempty pt = true ->
          head texts = Some ("Analyze this " +:+ pt +:+ " product")).
Proof.
  intros Hno.
  assert (Hp : hasPersonQuestions checkboxQuestions = false).
  { apply not_true_is_false. intros (o & Hin & Ho)%hasPersonQuestions_true.
    by apply (Hno o). }
  unfold createTestPop. rewrite Hp. unfold createComprehensivePop.
  cbv zeta. unfold pop_prompts. cbn [components List.map component_prompts prompts
                                    List.concat].
  rewrite !app_nil_r. eexists. split; [reflexivity|]. split.
  - intros q Hq. rewrite map_app. apply elem_of_app. left.
    assert (Hq' : q ∈ List.map prompt
                        (List.map (fun p => {| prompt := p; label := Some p |})
                           questions)).
    { rewrite List.map_map. cbn [prompt]. by rewrite List.map_id. }
    destruct productType as [pt|]; [|done].
    destruct (nonempty pt); [|done]. cbn [List.map]. by apply elem_of_cons; right.
  - intros pt -> ->. reflexivity.
Qed.

Lemma test_pop_product_mode_witness :
  exists texts,
    pop_prompts (createTestPop ["what is the collar style"] (Some "t-shirt")
                   ["productTitle"])
    = texts ++ texts
    /\ (forall question, question ∈ ["what is the collar style"] -> question ∈ texts)
    /\ (forall pt, Some "t-shirt" = Some pt -> nonempty pt = true ->
          head texts = Some ("Analyze this " +:+ pt +:+ " product")).
Proof.
  apply (test_pop_product_mode ["what is the collar style"] (Some "t-shirt")
           ["productTitle"]).
  intros o Ho Hperson. apply list_elem_of_singleton in Ho. subst o.
  unfold person_options in Hperson.
  rewrite !elem_of_cons, elem_of_nil in Hperson.
  intuition discriminate.
Defined.

(** X20.  The test never builds the Pop of the client: for all inputs of
    either, the prompts of the test Pop differ from the one prompt the
    client sends. *)
Theorem test_pop_never_client_pop questions productType checkboxQuestions
    questions' productType' checkboxQuestions' :
  pop_prompts (createTestPop questions productType checkboxQuestions)
  <> pop_prompts
       (Client.createVisualIntelligencePop questions' productType' checkboxQuestions').
Proof.
  unfold createTestPop.
  destruct (hasPersonQuestions checkboxQuestions) eqn:Hp.
  - unfold createPersonAnalysisPop, Client.createVisualIntelligencePop, pop_prompts.
    cbn. intros [= H].
    pose proof (client_prompt_line_break questions' productType' checkboxQuestions')
      as Hlf.
    rewrite <- H in Hlf.
    assert (HA : starts_with (person_prompt_text questions checkboxQuestions) "A" = true).
    { unfold person_prompt_text. rewrite Hp.
      destruct (0 <? _)%nat; repeat apply starts_with_app_l; done. }
    by pose proof (starts_with_one_char _ _ _ HA Hlf).
  - intros H. apply (f_equal length) in H. revert H.
    unfold createComprehensivePop, Client.createVisualIntelligencePop, pop_prompts.
    cbn. rewrite !app_nil_r, length_app. lia.
Qed.

End TestPopFacts.

(** ** Data URLs *)

Section DataUrlFacts.
Import ShopifyExport.

Lemma split_on_clean p s :
  all_chars (fun c => negb (p c)) s = true -> split_on p s = [s].
Proof.
  induction s as [|c s IH]; [done|]. simpl.
  intros [Hc Hs]%andb_true_iff. apply negb_true_iff in Hc. rewrite Hc.
  by rewrite (IH Hs).
Qed.

Lemma split_on_first p a c b :
  all_chars (fun c => negb (p c)) a = true -> p c = true ->
  split_on p (a +:+ String c b) = a :: split_on p b.
Proof.
  intros Ha Hc. induction a as [|d a IH].
  - change ("" +:+ String c b) with (String c b). simpl. by rewrite Hc.
  - rewrite append_cons. simpl in *.
    apply andb_true_iff in Ha as [Hd Ha]. apply negb_true_iff in Hd.
    rewrite Hd. by rewrite (IH Ha).
Qed.

Lemma lazy_to_semicolon_found a b :
  all_chars (fun c => negb ((code c =? 59)%N || is_line_terminator c)) a = true ->
  lazy_to_semicolon (a +:+ String ";" b) = Some a.
Proof.
  induction a as [|d a IH]; [done|].
  rewrite append_cons. simpl.
  intros [Hd Ha]%andb_true_iff. apply negb_true_iff, orb_false_iff in Hd as [-> ->].
  by rewrite (IH Ha).
Qed.

(** X21.  The export reads back the type the processing route wrote into the
    data URL of the image: for a type [major/minor] without comma,
    semicolon or line break and a payload without comma, the blob has
    the decoded payload, the type, and a file name ending in [minor]. *)
Theorem data_url_round_trip atob now major minor base64 bytes :
  all_chars mime_char major = true ->
  all_chars mime_char minor = true ->
  all_chars (fun c => negb (is_slash c)) major = true ->
  all_chars (fun c => negb (is_slash c)) minor = true ->
  nonempty minor = true ->
  all_chars (fun c => negb (is_comma c)) base64 = true ->
  atob (Some base64) = Returns bytes ->
  dataURLtoBlob atob now (ProcessRoute.imageSrc (major +:+ "/" +:+ minor) base64)
  = Returns {| blob_bytes := bytes;
               mimeType := major +:+ "/" +:+ minor;
               filename := "product-image-" +:+ decimal_N now +:+ "." +:+ minor |}.
Proof.
  intros Hmajor Hminor Hmajor' Hminor' Hne Hb Hatob.
  set (type := major +:+ "/" +:+ minor).
  assert (Htype : all_chars mime_char type = true).
  { subst type. clear -Hmajor Hminor. induction major as [|c a IH].
    - change ("" +:+ "/" +:+ minor) with (String "/" minor). simpl. by rewrite Hminor.
    - rewrite append_cons. simpl in *.
      apply andb_true_iff in Hmajor as [-> Ha]. by rewrite (IH Ha). }
  assert (Hsplit : split_on is_comma (ProcessRoute.imageSrc type base64)
                   = ["data:" +:+ type +:+ ";base64"; base64]).
  { unfold ProcessRoute.imageSrc.
    replace ("data:" +:+ type +:+ ";base64," +:+ base64)
      with (("data:" +:+ type +:+ ";base64") +:+ String "," base64).
    - rewrite split_on_first, (split_on_clean _ base64); [done|done| |done].
      clear -Htype. change ("data:" +:+ type +:+ ";base64")
        with (String "d" (String "a" (String "t" (String "a" (String ":"
               (type +:+ ";base64")))))).
      cbn [all_chars]. change (negb (is_comma "d")) with true.
      change (negb (is_comma "a")) with true. change (negb (is_comma "t")) with true.
      change (negb (is_comma ":")) with true. cbn [andb].
      induction type as [|c a IH]; [done|].
      rewrite append_cons. simpl in *.
      apply andb_true_iff in Htype as [Hc Ha]. rewrite (IH Ha).
      unfold mime_char in Hc. apply negb_true_iff in Hc.
      apply orb_false_iff in Hc as [Hc _]. apply orb_false_iff in Hc as [-> _]. done.
    - rewrite !append_assoc. reflexivity. }
  assert (Hmime : match_mime ("data:" +:+ type +:+ ";base64") = Some type).
  { change ("data:" +:+ type +:+ ";base64")
      with (String "d" (String "a" (String "t" (String "a" (String ":"
             (type +:+ String ";" "base64")))))).
    cbn [match_mime]. change (code "d" =? 58)%N with false.
    change (code "a" =? 58)%N with false. change (code "t" =? 58)%N with false.
    change (code ":" =? 58)%N with true. cbv iota.
    rewrite lazy_to_semicolon_found; [done|].
    clear -Htype. induction type as [|c a IH]; [done|]. simpl in *.
    apply andb_true_iff in Htype as [Hc Ha]. rewrite (IH Ha).
    unfold mime_char in Hc. apply negb_true_iff in Hc.
    apply orb_false_iff in Hc as [Hc ->]. apply orb_false_iff in Hc as [_ ->]. done. }
  unfold dataURLtoBlob. rewrite Hsplit. cbn [lookup list_lookup default]. unfold id.
  rewrite Hmime, Hatob. cbn [mbind outcome_bind default].
  subst type. change ("/" +:+ minor) with (String "/" minor).
  rewrite (split_on_first is_slash major "/" minor Hmajor' eq_refl).
  rewrite (split_on_clean _ minor Hminor'). cbn [lookup list_lookup]. by rewrite Hne.
Qed.

Lemma data_url_round_trip_witness :
  dataURLtoBlob
    (fun payload => match payload with
                    | Some _ => Returns "hi"
                    | None => Throws "InvalidCharacterError"
                    end)
    1700000000000%N (ProcessRoute.imageSrc "image/png" "aGk=")
  = Returns {| blob_bytes := "hi";
               mimeType := "image/png";
               filename := "product-image-1700000000000.png" |}.
Proof.
  apply (data_url_round_trip _ 1700000000000%N "image" "png" "aGk=" "hi");
    reflexivity.
Defined.

End DataUrlFacts.
